(** * Device-log capture sessions (appium-mcp, [src/tools/logs])

    A shallow embedding of the five log tools
    ([start_log_broadcast], [stop_log_broadcast], [get_logs],
    [clear_log_buffer], [list_log_sessions]) and of the state they share:
    the module-level [activeSessions] map, the [logBuffer] arrays that the
    capture processes' stdout handlers fill, and the spawned processes.

    Conventions.
    - A JavaScript string is the list of its UTF-16 code units, so that
      [.length], [.includes], [.split] and [.trim] mean what they mean in
      the source.  ASCII literals are written [js "..."].
    - A JavaScript number that counts things ([.length], [.size]) or is
      an exit status is a [Z], printed in decimal digits.  A number that
      a caller passes ([maxLines]) is any number: a rational, an
      infinity or NaN, together with the text the runtime prints for
      it.
    - Arrays and child processes are objects: they live in a store and
      are named by their index, so that the array a stdout handler closes
      over and the array a session record points to are the same one.
    - [console.error] diagnostics are not part of the modelled state. *)

From Stdlib Require Import ZArith Lia Strings.Ascii Strings.String.
From Stdlib Require Import QArith Qround.
From stdpp Require Import base list strings pretty.

Open Scope Z_scope.

(** ** JavaScript strings *)

Module Js.

Abbreviation str := (list N) (only parsing).

(** Code units of an ASCII literal. *)
Definition js (s : string) : str :=
  (λ a, N_of_ascii a) <$> list_ascii_of_string s.

(** Template-literal interpolation of an array length, a map size or an
    exit status: the decimal digits, which is what JavaScript prints
    for the integers of that size. *)
Definition of_number (n : Z) : str := js (pretty n).

(** The truthiness of a string: non-empty. *)
Definition truthy (s : str) : bool :=
  match s with [] => false | _ => true end.

(** [x ? ... : ...] for an optional string: the string when [x] is
    truthy. *)
Definition narrow (x : option str) : option str :=
  match x with
  | Some s => if truthy s then Some s else None
  | None => None
  end.

(** [x || d] for an optional string: [undefined] and [''] are falsy. *)
Definition or_else (x : option str) (d : str) : str :=
  default d (narrow x).

(** [!x] for an optional string. *)
Definition falsy (x : option str) : bool :=
  match narrow x with Some _ => false | None => true end.

(** [s.includes(c)] for a one-code-unit needle. *)
Definition includes (c : N) (s : str) : bool := existsb (N.eqb c) s.

(** [s.length]. *)
Definition len {A} (l : list A) : Z := Z.of_nat (length l).

(** [s.split(sep)] for a one-code-unit separator: never empty, the empty
    string gives [['']]. *)
Fixpoint split (sep : N) (s : str) : list str :=
  match s with
  | [] => [[]]
  | c :: s' =>
      if N.eqb c sep then [] :: split sep s'
      else match split sep s' with
           | h :: t => (c :: h) :: t
           | [] => [[c]]
           end
  end.

(** WhiteSpace and LineTerminator code units of ECMAScript, the ones
    [String.prototype.trim] strips. *)
Definition is_space (c : N) : bool :=
  ((9 <=? c) && (c <=? 13) || (c =? 32) || (c =? 160) || (c =? 5760)
   || (8192 <=? c) && (c <=? 8202) || (c =? 8232) || (c =? 8233)
   || (c =? 8239) || (c =? 8287) || (c =? 12288) || (c =? 65279))%N.

Fixpoint trim_start (s : str) : str :=
  match s with
  | c :: s' => if is_space c then trim_start s' else s
  | [] => []
  end.

(** [s.trim()]. *)
Definition trim (s : str) : str :=
  reverse (trim_start (reverse (trim_start s))).

(** [a.join(sep)]. *)
Fixpoint join (sep : str) (a : list str) : str :=
  match a with
  | [] => []
  | [x] => x
  | x :: rest => x ++ sep ++ join sep rest
  end.

(** [a.slice(start)] with one argument: a negative [start] counts from
    the end and is clamped at the beginning, a positive one is clamped
    at the length. *)
Definition slice {A} (start : Z) (a : list A) : list A :=
  let k := if start <? 0 then Z.max (len a + start) 0
           else Z.min start (len a) in
  drop (Z.to_nat k) a.

Definition lf : str := [10%N].

End Js.

Import Js.

(** ** JavaScript numbers passed by a caller *)

Module Num.

(** The value of a number: every finite double is a rational. *)
Inductive value :=
  | Finite (q : Q)
  | Infinity
  | NegInfinity
  | NaN.

(** A number as a tool gets it: its value, and the text that
    interpolating it in a template literal gives.  That text is the
    runtime's business (Number::toString); it comes with the number. *)
Record number := mkNumber {
  value_of : value;
  text_of : list N
}.

(** An integer small enough to be printed digit by digit. *)
Definition of_Z (z : Z) : number :=
  mkNumber (Finite (inject_Z z)) (of_number z).

(** [!n]: 0, -0 and NaN are falsy. *)
Definition falsy (n : number) : bool :=
  match value_of n with
  | Finite q => Qeq_bool q 0
  | NaN => true
  | Infinity | NegInfinity => false
  end.

(** [-v]. *)
Definition neg (v : value) : value :=
  match v with
  | Finite q => Finite (- q)
  | Infinity => NegInfinity
  | NegInfinity => Infinity
  | NaN => NaN
  end.

(** ToIntegerOrInfinity: NaN is 0, a finite number loses its
    fraction, towards zero. *)
Inductive integer_or_infinity :=
  | Int (z : Z)
  | PlusInf
  | MinusInf.

Definition truncate (q : Q) : Z := Z.quot (Qnum q) (Zpos (Qden q)).

Definition ToIntegerOrInfinity (v : value) : integer_or_infinity :=
  match v with
  | Finite q => Int (truncate q)
  | Infinity => PlusInf
  | NegInfinity => MinusInf
  | NaN => Int 0
  end.

(** [a.slice(start)] for any number [start]: minus infinity is the
    beginning, plus infinity the end. *)
Definition slice {A} (start : value) (a : list A) : list A :=
  match ToIntegerOrInfinity start with
  | Int z => Js.slice z a
  | MinusInf => a
  | PlusInf => []
  end.

(** [total > n] for an integer [total]: false at NaN. *)
Definition below (n : value) (total : Z) : bool :=
  match n with
  | Finite q => negb (Qle_bool (inject_Z total) q)
  | NegInfinity => true
  | Infinity | NaN => false
  end.

End Num.

(** ** The stdout handler: a bounded line buffer

    The two [logProcess.stdout.on('data', ...)] handlers (android and
    ios) have the same body as far as the buffer goes. *)

(** [logBuffer.push(line); if (logBuffer.length > 10000) logBuffer.shift()] *)
Definition push_line (logBuffer : list str) (line : str) : list str :=
  let pushed := logBuffer ++ [line] in
  if len pushed >? 10000 then tail pushed else pushed.

(** The loop body: blank fragments are skipped. *)
Definition keep_line (logBuffer : list str) (line : str) : list str :=
  if truthy (trim line) then push_line logBuffer line else logBuffer.

(** The handler on one chunk, [data.toString()] given as [data]. *)
Definition on_stdout_data (logBuffer : list str) (data : str) : list str :=
  foldl keep_line logBuffer (split 10 data).

(** A fragment that reaches the buffer whole when sent as a chunk of its
    own: no line feed inside, not blank. *)
Definition single_line (s : str) : bool :=
  negb (includes 10 s) && truthy (trim s).

(** ** [Map<string, V>]

    A JavaScript [Map] iterates in insertion order and
    [list_log_sessions] prints [activeSessions.values()] in that order,
    so the map is kept as an association list: [set] on a present key
    replaces the value where it stands, [set] on a new key appends. *)

Module JsMap.
Abbreviation t V := (list (str * V)) (only parsing).

Section ops.
Context {V : Type}.

Abbreviation t := (list (str * V)) (only parsing).

Fixpoint get (k : str) (m : t) : option V :=
  match m with
  | [] => None
  | (k', v) :: m' => if decide (k' = k) then Some v else get k m'
  end.

Definition has (k : str) (m : t) : bool :=
  match get k m with Some _ => true | None => false end.

Fixpoint set (k : str) (v : V) (m : t) : t :=
  match m with
  | [] => [(k, v)]
  | (k', v') :: m' =>
      if decide (k' = k) then (k, v) :: m' else (k', v') :: set k v m'
  end.

Fixpoint delete (k : str) (m : t) : t :=
  match m with
  | [] => []
  | (k', v') :: m' =>
      if decide (k' = k) then delete k m' else (k', v') :: delete k m'
  end.

Definition values (m : t) : list V := m.*2.

Definition keys (m : t) : list str := m.*1.

Definition size (m : t) : Z := len m.
End ops.
End JsMap.

(** ** Sessions, processes, and the state of the module *)

Inductive Platform := android | ios.

Definition platform_name (p : Platform) : str :=
  match p with android => js "android" | ios => js "ios" end.

(** [toUpperCase] on the ASCII letters, all that a platform name has. *)
Definition toUpperCase (s : str) : str :=
  (λ c, if (97 <=? c) && (c <=? 122) then c - 32 else c)%N <$> s.

(** [interface LogSession].  [logProcess] and [logBuffer] are references
    into the stores of [World]. *)
Record LogSession := mkLogSession {
  sessionId : str;
  serverUrl : str;
  platform : Platform;
  deviceId : option str;
  logProcess : option nat;
  logBuffer : nat;
  isStreaming : bool
}.

(** [session.isStreaming = false] *)
Definition stop_streaming (s : LogSession) : LogSession :=
  mkLogSession (sessionId s) (serverUrl s) (platform s) (deviceId s)
               (logProcess s) (logBuffer s) false.

(** A [ChildProcess] as the tools see it: what it was spawned with, the
    handlers registered on it (each one named by what its closure
    captured), its [exitCode], and the signals [kill] delivered. *)
Record ChildProcess := mkChildProcess {
  spawnfile : str;
  spawnargs : list str;
  shell : bool;
  stdout_data : option nat;
  on_error : option str;
  on_close : option str;
  exitCode : option Z;
  signals : list str
}.

Record World := mkWorld {
  activeSessions : JsMap.t LogSession;
  arrays : list (list str);
  processes : list ChildProcess
}.

Definition initial : World := mkWorld [] [] [].

Definition with_sessions (f : JsMap.t LogSession → JsMap.t LogSession)
    (w : World) : World :=
  mkWorld (f (activeSessions w)) (arrays w) (processes w).

Definition with_process (pid : nat) (f : ChildProcess → ChildProcess)
    (w : World) : World :=
  mkWorld (activeSessions w) (arrays w) (alter f pid (processes w)).

(** Reading and writing an array of the store. *)
Definition read (r : nat) (w : World) : list str :=
  default [] (arrays w !! r).

Definition write (r : nat) (a : list str) (w : World) : World :=
  mkWorld (activeSessions w) (<[r := a]> (arrays w)) (processes w).

(** [const logBuffer: string[] = []] *)
Definition new_array (w : World) : nat * World :=
  (length (arrays w),
   mkWorld (activeSessions w) (arrays w ++ [[]]) (processes w)).

(** [deps.spawn(file, args, {shell})]: a new process, no handler yet,
    [exitCode] null. *)
Definition spawn (file : str) (args : list str) (sh : bool) (w : World)
    : nat * World :=
  (length (processes w),
   mkWorld (activeSessions w) (arrays w)
     (processes w ++ [mkChildProcess file args sh None None None None []])).

(** [logProcess.stdout?.on('data', ...)], [logProcess.on('error', ...)],
    [logProcess.on('close', ...)]. *)
Definition listen_stdout (pid buffer : nat) : World → World :=
  with_process pid (λ p,
    mkChildProcess (spawnfile p) (spawnargs p) (shell p) (Some buffer)
                   (on_error p) (on_close p) (exitCode p) (signals p)).

Definition listen_error (pid : nat) (sid : str) : World → World :=
  with_process pid (λ p,
    mkChildProcess (spawnfile p) (spawnargs p) (shell p) (stdout_data p)
                   (Some sid) (on_close p) (exitCode p) (signals p)).

Definition listen_close (pid : nat) (sid : str) : World → World :=
  with_process pid (λ p,
    mkChildProcess (spawnfile p) (spawnargs p) (shell p) (stdout_data p)
                   (on_error p) (Some sid) (exitCode p) (signals p)).

Definition exit_code (pid : nat) (w : World) : option Z :=
  p ← processes w !! pid; exitCode p.

(** The body shared by the 'error' and 'close' handlers:
    [const session = activeSessions.get(sessionId);
     if (session) session.isStreaming = false]. *)
Definition mark_stopped (sid : str) (w : World) : World :=
  match JsMap.get sid (activeSessions w) with
  | Some session =>
      with_sessions (JsMap.set sid (stop_streaming session)) w
  | None => w
  end.

(** What a capture process can do while the tools are not running. *)
Inductive ProcEvent :=
  | StdoutData (pid : nat) (data : str)
  | Exit (pid : nat) (code : Z)
  | ExitBySignal (pid : nat)
  | ProcError (pid : nat).

Definition fire (handler : option str) (w : World) : World :=
  match handler with Some sid => mark_stopped sid w | None => w end.

Definition deliver (w : World) (ev : ProcEvent) : World :=
  match ev with
  | StdoutData pid data =>
      match processes w !! pid ≫= stdout_data with
      | Some r => write r (on_stdout_data (read r w) data) w
      | None => w
      end
  | Exit pid code =>
      match processes w !! pid with
      | Some p =>
          fire (on_close p)
            (with_process pid (λ p,
               mkChildProcess (spawnfile p) (spawnargs p) (shell p)
                 (stdout_data p) (on_error p) (on_close p) (Some code)
                 (signals p)) w)
      | None => w
      end
  | ExitBySignal pid =>
      match processes w !! pid with
      | Some p => fire (on_close p) w
      | None => w
      end
  | ProcError pid =>
      match processes w !! pid with
      | Some p => fire (on_error p) w
      | None => w
      end
  end.

Definition deliver_all (evs : list ProcEvent) (w : World) : World :=
  foldl deliver w evs.

(** What a tool gives back: a single text block, or a thrown [Error]. *)
Inductive Outcome :=
  | Content (text : str)
  | Throw (message : str).

(** ** [start_log_broadcast] *)

(** U+2705 and U+1F4A1 (a surrogate pair), which open two lines of the
    success texts. *)
Definition check_mark : str := [9989%N].
Definition light_bulb : str := [55357%N; 56481%N].

Definition capture_hint : str :=
  lf ++ lf
  ++ js "Logs are being captured in real-time. Use 'get_logs' to retrieve them."
  ++ lf ++ lf ++ light_bulb
  ++ js " Tip: Wait a few seconds for logs to buffer, then call get_logs to see them.".

Record StartArgs := mkStartArgs {
  arg_sessionId : str;
  arg_platform : Platform;
  arg_serverUrl : option str;
  arg_deviceId : option str
}.

(** The answer of [deps.axios.get]: it throws, or the body has (or has
    not) a string at [data.value.capabilities['appium:udid']]. *)
Inductive AxiosResult :=
  | AxiosThrows
  | AxiosData (udid : option str).

(** What the outside does during one call of the tool: the answer to the
    session lookup, and the process events that arrive while the call is
    suspended at its two [await]s. *)
Record StartEnv := mkStartEnv {
  lookup : AxiosResult;
  during_lookup : list ProcEvent;
  during_settle : list ProcEvent
}.

(** The text of the duplicate-start guard. *)
Definition already_active_text (sid : str) (session : LogSession) : str :=
  js "Log streaming is already active for session " ++ sid ++ lf
  ++ js "Device: " ++ or_else (deviceId session) (js "default").

(** [if (activeSessions.has(sessionId)) { ... if (session.isStreaming) return ... }] *)
Definition already_streaming (sid : str) (w : World) : option str :=
  if JsMap.has sid (activeSessions w) then
    match JsMap.get sid (activeSessions w) with
    | Some session =>
        if isStreaming session then Some (already_active_text sid session)
        else None
    | None => None
    end
  else None.

(** [if (!deviceId) { try { ... await deps.axios.get(...) ... } catch { } }] *)
Definition detect_device (provided : option str) (env : StartEnv)
    (w : World) : option str * World :=
  if falsy provided then
    let w := deliver_all (during_lookup env) w in
    match lookup env with
    | AxiosData udid => (udid, w)
    | AxiosThrows => (provided, w)
    end
  else (provided, w).

Module Android.

Definition adbCmd (deviceId : option str) : str :=
  match narrow deviceId with
  | Some d => js "adb -s " ++ d ++ js " logcat -v time"
  | None => js "adb logcat -v time"
  end.

(** [startAndroidLogs] up to the end of the settle delay. *)
Definition launch (sid : str) (deviceId : option str) (logBuffer : nat)
    (settle : list ProcEvent) (w : World) : nat * World :=
  let '(logProcess, w) := spawn (adbCmd deviceId) [] true w in
  let w := listen_stdout logProcess logBuffer w in
  let w := listen_error logProcess sid w in
  let w := listen_close logProcess sid w in
  (logProcess, deliver_all settle w).

Definition failure (code : Z) : str :=
  js "Failed to start adb logcat (exit code: " ++ of_number code
  ++ js "). Make sure adb is installed and device is connected. Try running 'adb devices' to verify.".

Definition started_text (sid : str) (deviceId : option str) : str :=
  check_mark ++ js " Started Android log streaming for session " ++ sid
  ++ lf ++ js "Device: " ++ or_else deviceId (js "default device")
  ++ lf ++ js "Command: " ++ adbCmd deviceId
  ++ capture_hint.

End Android.

Definition startAndroidLogs (sid serverUrl : str) (deviceId : option str)
    (logBuffer : nat) (settle : list ProcEvent) (w : World)
    : Outcome * World :=
  let '(logProcess, w) := Android.launch sid deviceId logBuffer settle w in
  match exit_code logProcess w with
  | Some code => (Throw (Android.failure code), w)
  | None =>
      (Content (Android.started_text sid deviceId),
       with_sessions
         (JsMap.set sid
            (mkLogSession sid serverUrl android deviceId (Some logProcess)
                          logBuffer true)) w)
  end.

Module Ios.

(** [deviceId && (deviceId.includes('-') || deviceId.length > 25)],
    as the condition of the [if]. *)
Definition isSimulator (deviceId : option str) : bool :=
  match narrow deviceId with
  | Some d => includes 45 d || (len d >? 25)
  | None => false
  end.

Definition simctl_args (target : str) : list str :=
  [js "simctl"; js "spawn"; target; js "log"; js "stream"; js "--level";
   js "debug"].

Record Plan := mkPlan {
  command : str;
  file : str;
  args : list str;
  toolName : str
}.

(** The two arms of [if (isSimulator)], each with its own test of
    [deviceId]. *)
Definition plan (deviceId : option str) : Plan :=
  if isSimulator deviceId then
    mkPlan
      (match narrow deviceId with
       | Some d =>
           js "xcrun simctl spawn " ++ d ++ js " log stream --level debug"
       | None => js "xcrun simctl spawn booted log stream --level debug"
       end)
      (js "xcrun")
      (match narrow deviceId with
       | Some d => simctl_args d
       | None => simctl_args (js "booted")
       end)
      (js "iOS Simulator (simctl)")
  else
    mkPlan
      (match narrow deviceId with
       | Some d => js "idevicesyslog -u " ++ d
       | None => js "idevicesyslog"
       end)
      (js "idevicesyslog")
      (match narrow deviceId with
       | Some d => [js "-u"; d]
       | None => []
       end)
      (js "iOS Device (idevicesyslog)").

(** [startIosLogs] up to the end of the settle delay. *)
Definition launch (sid : str) (deviceId : option str) (logBuffer : nat)
    (settle : list ProcEvent) (w : World) : nat * World :=
  let '(logProcess, w) :=
    spawn (file (plan deviceId)) (args (plan deviceId)) false w in
  let w := listen_stdout logProcess logBuffer w in
  let w := listen_error logProcess sid w in
  let w := listen_close logProcess sid w in
  (logProcess, deliver_all settle w).

Definition failure (deviceId : option str) : str :=
  if isSimulator deviceId
  then js "Failed to start iOS simulator logs. Make sure Xcode is installed and simulator is running."
  else js "Failed to start iOS device logs. Make sure 'idevicesyslog' is installed (brew install libimobiledevice) and device is connected.".

Definition started_text (sid : str) (deviceId : option str) : str :=
  check_mark ++ js " Started iOS log streaming for session " ++ sid
  ++ lf ++ js "Device: " ++ or_else deviceId (js "default device")
  ++ lf ++ js "Type: " ++ toolName (plan deviceId)
  ++ lf ++ js "Command: " ++ command (plan deviceId)
  ++ capture_hint.

End Ios.

Definition startIosLogs (sid serverUrl : str) (deviceId : option str)
    (logBuffer : nat) (settle : list ProcEvent) (w : World)
    : Outcome * World :=
  let '(logProcess, w) := Ios.launch sid deviceId logBuffer settle w in
  match exit_code logProcess w with
  | Some _ => (Throw (Ios.failure deviceId), w)
  | None =>
      (Content (Ios.started_text sid deviceId),
       with_sessions
         (JsMap.set sid
            (mkLogSession sid serverUrl ios deviceId (Some logProcess)
                          logBuffer true)) w)
  end.

Definition executeStartLogBroadcast (args : StartArgs) (env : StartEnv)
    (w : World) : Outcome * World :=
  let sid := arg_sessionId args in
  let serverUrl := or_else (arg_serverUrl args) (js "http://localhost:4723") in
  match already_streaming sid w with
  | Some text => (Content text, w)
  | None =>
      let '(deviceId, w) := detect_device (arg_deviceId args) env w in
      let '(logBuffer, w) := new_array w in
      match arg_platform args with
      | android =>
          startAndroidLogs sid serverUrl deviceId logBuffer
                           (during_settle env) w
      | ios =>
          startIosLogs sid serverUrl deviceId logBuffer (during_settle env) w
      end
  end.

(** ** [stop_log_broadcast] *)

(** What [session.logProcess.kill('SIGTERM')] can do: deliver the signal
    and return [true], return [false] without delivering it, or throw. *)
Inductive KillResult :=
  | Delivered
  | NotDelivered
  | KillThrows (message : str).

(** The call itself: the thrown message on the left. *)
Definition kill (pid : nat) (signal : str) (k : KillResult) (w : World)
    : str + World :=
  match k with
  | Delivered =>
      inr (with_process pid (λ p,
             mkChildProcess (spawnfile p) (spawnargs p) (shell p)
               (stdout_data p) (on_error p) (on_close p) (exitCode p)
               (signals p ++ [signal])) w)
  | NotDelivered => inr w
  | KillThrows message => inl message
  end.

Definition no_session_text (sid : str) : str :=
  js "No active log session found for " ++ sid.

Definition stopped_text (sid : str) (session : LogSession) (logCount : Z)
    : str :=
  check_mark ++ js " Stopped log streaming for session " ++ sid
  ++ lf ++ js "Device: " ++ or_else (deviceId session) (js "default")
  ++ lf ++ js "Total logs captured: " ++ of_number logCount ++ js " lines".

Definition executeStopLogBroadcast (sid : str) (k : KillResult) (w : World)
    : Outcome * World :=
  match JsMap.get sid (activeSessions w) with
  | None => (Content (no_session_text sid), w)
  | Some session =>
      let logCount := len (read (logBuffer session) w) in
      let killed :=
        match logProcess session with
        | Some pid => kill pid (js "SIGTERM") k w
        | None => inr w
        end in
      match killed with
      | inr w =>
          (Content (stopped_text sid session logCount),
           with_sessions (JsMap.delete sid) w)
      | inl message =>
          (Throw (js "Error stopping log streaming: " ++ message),
           with_sessions (JsMap.delete sid) w)
      end
  end.

(** ** [get_logs] *)

(** The last line of the report: the note shown when lines were left
    out. *)
Definition truncation_note (maxLines : Num.number) (totalCount : Z)
    : str :=
  if Num.below (Num.value_of maxLines) totalCount then
    lf ++ js "(Showing " ++ Num.text_of maxLines ++ js " of "
    ++ of_number totalCount
    ++ js " total lines. Increase maxLines to see more.)"
  else [].

Definition logs_text (sid : str) (session : LogSession)
    (maxLines : Num.number)
    (totalCount : Z) (logs : list str) : str :=
  js "=== " ++ toUpperCase (platform_name (platform session))
  ++ js " Logs for Session " ++ sid ++ js " ===" ++ lf
  ++ js "Status: "
  ++ (if isStreaming session then js "Streaming" else js "Stopped") ++ lf
  ++ js "Device: " ++ or_else (deviceId session) (js "default") ++ lf
  ++ js "Total logs captured: " ++ of_number totalCount ++ lf
  ++ js "Showing last " ++ of_number (len logs) ++ js " lines:" ++ lf
  ++ lf
  ++ join lf logs ++ lf
  ++ lf
  ++ truncation_note maxLines totalCount.

(** [args.maxLines || 100]: [undefined], [0] and [NaN] are falsy. *)
Definition max_lines_or_default (maxLines : option Num.number)
    : Num.number :=
  match maxLines with
  | Some n => if Num.falsy n then Num.of_Z 100 else n
  | None => Num.of_Z 100
  end.

Definition executeGetLogs (sid : str) (maxLines : option Num.number)
    (w : World) : Outcome * World :=
  let maxLines := max_lines_or_default maxLines in
  match JsMap.get sid (activeSessions w) with
  | None =>
      (Content (no_session_text sid ++ js ". Use 'start_log_broadcast' first."),
       w)
  | Some session =>
      let logs :=
        Num.slice (Num.neg (Num.value_of maxLines))
                  (read (logBuffer session) w) in
      let totalCount := len (read (logBuffer session) w) in
      (Content (logs_text sid session maxLines totalCount logs), w)
  end.

(** ** [clear_log_buffer] *)

Definition cleared_text (sid : str) (clearedCount : Z) : str :=
  js "Cleared " ++ of_number clearedCount
  ++ js " log lines from buffer for session " ++ sid
  ++ js ". Log streaming continues.".

Definition executeClearLogBuffer (sid : str) (w : World)
    : Outcome * World :=
  match JsMap.get sid (activeSessions w) with
  | None => (Content (no_session_text sid), w)
  | Some session =>
      let clearedCount := len (read (logBuffer session) w) in
      (Content (cleared_text sid clearedCount),
       write (logBuffer session) [] w)
  end.

(** ** [list_log_sessions] *)

Definition session_summary (w : World) (session : LogSession) : str :=
  js "- Session: " ++ sessionId session ++ lf
  ++ js "  Platform: " ++ platform_name (platform session) ++ lf
  ++ js "  Device: " ++ or_else (deviceId session) (js "default") ++ lf
  ++ js "  Server: " ++ serverUrl session ++ lf
  ++ js "  Status: "
  ++ (if isStreaming session then js "Streaming" else js "Stopped") ++ lf
  ++ js "  Logs buffered: " ++ of_number (len (read (logBuffer session) w)).

(** The sessions [list_log_sessions] prints, in the order it prints
    them. *)
Definition listed (w : World) : list LogSession :=
  JsMap.values (activeSessions w).

Definition executeListLogSessions (w : World) : Outcome :=
  if JsMap.size (activeSessions w) =? 0 then
    Content (js "No active log streaming sessions.")
  else
    Content (js "Active Log Sessions ("
             ++ of_number (JsMap.size (activeSessions w)) ++ js "):"
             ++ lf ++ lf
             ++ join (lf ++ lf) (session_summary w <$> listed w)).

(** ** Histories: tool calls and process events from the initial state *)

Inductive Action :=
  | CallStart (args : StartArgs) (env : StartEnv)
  | CallStop (sid : str) (k : KillResult)
  | CallGet (sid : str) (maxLines : option Num.number)
  | CallClear (sid : str)
  | Happens (ev : ProcEvent).

Definition step (w : World) (a : Action) : World :=
  match a with
  | CallStart args env => (executeStartLogBroadcast args env w).2
  | CallStop sid k => (executeStopLogBroadcast sid k w).2
  | CallGet sid maxLines => (executeGetLogs sid maxLines w).2
  | CallClear sid => (executeClearLogBuffer sid w).2
  | Happens ev => deliver w ev
  end.

Definition run (history : list Action) : World := foldl step initial history.

(** Every array of the store within the capacity. *)
Definition bounded (w : World) : Prop :=
  Forall (λ a : list str, len a ≤ 10000) (arrays w).

(** ** Notions the properties are stated with *)

(** No streaming session under [sid]: none at all, or a stopped one. *)
Definition quiet (sid : str) (m : JsMap.t LogSession) : Prop :=
  match JsMap.get sid m with
  | Some session => isStreaming session = false
  | None => True
  end.

(** The events that reach the state while one call of
    [start_log_broadcast] is suspended. *)
Definition interleaved (args : StartArgs) (env : StartEnv)
    : list ProcEvent :=
  (if falsy (arg_deviceId args) then during_lookup env else [])
  ++ during_settle env.

(** The process the call spawned and the state at the end of its settle
    delay, where [logProcess.exitCode] is read. *)
Definition at_settle_end (args : StartArgs) (env : StartEnv) (w : World)
    : nat * World :=
  let '(deviceId, w) := detect_device (arg_deviceId args) env w in
  let '(logBuffer, w) := new_array w in
  match arg_platform args with
  | android =>
      Android.launch (arg_sessionId args) deviceId logBuffer
                     (during_settle env) w
  | ios =>
      Ios.launch (arg_sessionId args) deviceId logBuffer
                 (during_settle env) w
  end.

(** The message of the [Error] a failed start throws. *)
Definition startup_failure (p : Platform) (deviceId : option str)
    (code : Z) : str :=
  match p with
  | android => Android.failure code
  | ios => Ios.failure deviceId
  end.

(** [v] is [w] with one more process, whose 'error' and 'close'
    handlers look [sid] up, and [sid] is quiet. *)
Definition one_more (sid : str) (w v : World) : Prop :=
  activeSessions v = activeSessions w
  ∧ quiet sid (activeSessions w)
  ∧ ∃ p, processes v = processes w ++ [p]
         ∧ on_error p = Some sid ∧ on_close p = Some sid.

(** Two states with the same sessions and processes: the arrays do not
    steer the handlers. *)
Definition same_control (w v : World) : Prop :=
  activeSessions v = activeSessions w ∧ processes v = processes w.

(** Each entry of the session map holds the session of that id. *)
Definition well_keyed (w : World) : Prop :=
  Forall (λ kv : str * LogSession, sessionId kv.2 = kv.1)
         (activeSessions w).

(** The last [min n (length buffer)] lines of a buffer, oldest first. *)
Definition last_lines (n : Z) (buffer : list str) : list str :=
  drop (Z.to_nat (len buffer - Z.min n (len buffer))) buffer.

(** The file and arguments a process was spawned with, and the same for
    the whole process table. *)
Definition spawned (pw : nat * World) : option (str * list str) :=
  p ← processes pw.2 !! pw.1; Some (spawnfile p, spawnargs p).

Definition spawn_records (w : World) : list (str * list str) :=
  (λ p, (spawnfile p, spawnargs p)) <$> processes w.

(** The test of the spec: a hyphen, or more than 25 code units. *)
Definition hyphen_or_long (d : str) : Prop :=
  includes 45 d = true ∨ 25 < len d.

(** The choice of the iOS command as the spec words it, for one supplied
    device id [d]: the id is the one the launcher gets; with a hyphen or more than 25 code units,
    [xcrun simctl spawn d log stream --level debug] is spawned;
    otherwise [idevicesyslog -u d] is. *)
Definition ios_choice_as_specified (d : str) : Prop :=
  (∀ env w, detect_device (Some d) env w = (Some d, w))
  ∧ ∀ sid buffer settle w,
      (hyphen_or_long d →
       spawned (Ios.launch sid (Some d) buffer settle w)
       = Some (js "xcrun",
               [js "simctl"; js "spawn"; d; js "log"; js "stream";
                js "--level"; js "debug"])
       ∧ Ios.command (Ios.plan (Some d))
         = js "xcrun simctl spawn " ++ d ++ js " log stream --level debug")
      ∧ (¬ hyphen_or_long d →
         spawned (Ios.launch sid (Some d) buffer settle w)
         = Some (js "idevicesyslog", [js "-u"; d])
         ∧ Ios.command (Ios.plan (Some d)) = js "idevicesyslog -u " ++ d).

(** ** Example states *)

(** The lines "line 0", "line 1", ... *)
Definition numbered_lines (n : nat) : list str :=
  (λ i : nat, js "line " ++ of_number (Z.of_nat i)) <$> seq 0 n.

(** Example inputs: an android start for session s1 that nothing
    disturbs, the state it leaves, and an ios start for session s2 whose
    [xcrun] exits with code 1 during the settle delay, while the stream
    of s1 prints a line and then closes. *)
Definition undisturbed : StartEnv := mkStartEnv AxiosThrows [] [].

Definition s1_android : StartArgs :=
  mkStartArgs (js "s1") android None None.

Definition s1_streaming : World :=
  (executeStartLogBroadcast s1_android undisturbed initial).2.

Definition s2_simulator : StartArgs :=
  mkStartArgs (js "s2") ios None (Some (js "00008030-001C2D")).

Definition xcrun_exits : StartEnv :=
  mkStartEnv AxiosThrows []
    [StdoutData 0 (js "boot completed"); Exit 1 1; Exit 0 0].

(** Session s1 after its process printed the lines a, b and c. *)
Definition s1_abc : World :=
  deliver s1_streaming
    (StdoutData 0 (js "a" ++ lf ++ js "b" ++ lf ++ js "c" ++ lf)).

(** ** Notions for the further properties *)

(** The non-blank fragments of one chunk, the lines its handler call
    pushes. *)
Definition nonblank_fragments (data : str) : list str :=
  filter (λ line, truthy (trim line) = true) (split 10 data).

(** Everything that was ever pushed: what the buffer held, then the
    non-blank fragments of the chunks in their order. *)
Definition received (buf : list str) (chunks : list str) : list str :=
  buf ++ concat (nonblank_fragments <$> chunks).

(** The code of the last [Exit] of process [pid] among the events, if
    there is one; [seen] is the code seen so far. *)
Definition exit_after (pid : nat) (seen : option Z) (evs : list ProcEvent)
    : option Z :=
  foldl (λ acc ev,
           match ev with
           | Exit pid' code => if decide (pid' = pid) then Some code else acc
           | _ => acc
           end) seen evs.

Definition last_exit (pid : nat) (evs : list ProcEvent) : option Z :=
  exit_after pid None evs.

(** What process events may do to a session: nothing, or turn its
    streaming flag off. *)
Definition settled (before after : str * LogSession) : Prop :=
  after.1 = before.1
  ∧ (after.2 = before.2 ∨ after.2 = stop_streaming before.2).

(** How each process was launched and which signals it got. *)
Definition launch_records (w : World)
    : list (str * list str * bool * list str) :=
  (λ p, (spawnfile p, spawnargs p, shell p, signals p)) <$> processes w.

(** The handlers of each process. *)
Definition wiring (w : World)
    : list (option nat * option (str) * option (str)) :=
  (λ p, (stdout_data p, on_error p, on_close p)) <$> processes w.

(** Every session has a process, whose stdout handler fills the
    session's buffer and whose 'error' and 'close' handlers carry the
    session's id; the buffer is an array of the store, and no two
    sessions have the same one. *)
Definition wired (w : World) : Prop :=
  Forall (λ kv : str * LogSession,
            (logBuffer kv.2 < length (arrays w))%nat
            ∧ ∃ pid, logProcess kv.2 = Some pid
                     ∧ wiring w !! pid
                       = Some (Some (logBuffer kv.2), Some kv.1, Some kv.1))
         (activeSessions w)
  ∧ NoDup ((λ kv : str * LogSession, logBuffer kv.2)
             <$> activeSessions w).

(** Session s1 is started, its [adb] reports an error, and s1 is
    started again. *)
Definition s1_restarted : World :=
  run [CallStart s1_android undisturbed; Happens (ProcError 0);
       CallStart s1_android undisturbed].

(** The part of [wired] that speaks of one session. *)
Definition wired_entry (n : nat)
    (wires : list (option nat * option str * option str))
    (kv : str * LogSession) : Prop :=
  (logBuffer kv.2 < n)%nat
  ∧ ∃ pid, logProcess kv.2 = Some pid
           ∧ wires !! pid = Some (Some (logBuffer kv.2), Some kv.1, Some kv.1).

(** Session s1 on android and session s2 on an iOS device, both
    streaming; s1 has printed the lines a, b and c, s2 the line x. *)
Definition s2_device : StartArgs :=
  mkStartArgs (js "s2") ios None (Some (js "a1b2c3d4e5f6")).

Definition two_sessions : list Action :=
  [CallStart s1_android undisturbed;
   CallStart s2_device undisturbed;
   Happens (StdoutData 0 (js "a" ++ lf ++ js "b" ++ lf ++ js "c" ++ lf));
   Happens (StdoutData 1 (js "x" ++ lf))].

Definition s1_session : LogSession :=
  mkLogSession (js "s1") (js "http://localhost:4723") android None
               (Some 0%nat) 0%nat true.

(** The numbers 0.5 and 2.5, as JavaScript prints them. *)
Definition half : Num.number := Num.mkNumber (Num.Finite (1 # 2)) (js "0.5").

Definition two_and_a_half : Num.number :=
  Num.mkNumber (Num.Finite (5 # 2)) (js "2.5").

(** Session s1 after its process printed the 150 lines "line 0" to
    "line 149" in one chunk. *)
Definition s1_150 : World :=
  deliver s1_streaming (StdoutData 0 (join lf (numbered_lines 150))).

(** A start of s2 on an android device, and what happens around a
    start beside s1 whose process (the second of the table) exits with
    a status, or is closed by a signal, during the settle delay. *)
Definition s2_android : StartArgs :=
  mkStartArgs (js "s2") android None (Some (js "emulator-5554")).

Definition exits_with (code : Z) : StartEnv :=
  mkStartEnv AxiosThrows [] [Exit 1 code].

Definition closed_by_signal : StartEnv :=
  mkStartEnv AxiosThrows [] [ExitBySignal 1].

(** * Properties *)

(** ** The line buffer *)

Section buffer.
Implicit Types (buf : list str) (line data : str).

Lemma len_app {A} (l k : list A) : len (l ++ k) = len l + len k.
Proof. unfold len. rewrite length_app. lia. Qed.

Lemma len_nonneg {A} (l : list A) : 0 ≤ len l.
Proof. unfold len. lia. Qed.

Lemma push_line_bounded buf line :
  len buf ≤ 10000 → len (push_line buf line) ≤ 10000.
Proof.
  intros Hb. unfold push_line.
  destruct (Z.gtb_spec (len (buf ++ [line])) 10000) as [Hgt|Hle]; [|done].
  rewrite len_app in Hgt. unfold len in *.
  destruct buf as [|x buf]; simpl in *; [lia|].
  rewrite length_app. simpl. lia.
Qed.

Lemma keep_line_bounded buf line :
  len buf ≤ 10000 → len (keep_line buf line) ≤ 10000.
Proof.
  intros Hb. unfold keep_line.
  destruct (truthy (trim line)); [by apply push_line_bounded|done].
Qed.

Lemma on_stdout_data_bounded buf data :
  len buf ≤ 10000 → len (on_stdout_data buf data) ≤ 10000.
Proof.
  unfold on_stdout_data. generalize (split 10 data) as frags.
  intros frags. revert buf.
  induction frags as [|f frags IH]; intros buf Hb; simpl; [done|].
  apply IH. by apply keep_line_bounded.
Qed.

Lemma chunks_bounded buf (chunks : list str) :
  len buf ≤ 10000 → len (foldl on_stdout_data buf chunks) ≤ 10000.
Proof.
  revert buf. induction chunks as [|c chunks IH]; intros buf Hb; simpl.
  - done.
  - apply IH. by apply on_stdout_data_bounded.
Qed.

(** A string without a line feed is one fragment. *)
Lemma split_no_lf data : includes 10 data = false → split 10 data = [data].
Proof.
  induction data as [|c data IH]; [done|].
  change (includes 10 (c :: data)) with ((10 =? c)%N || includes 10 data).
  intros H. apply orb_false_iff in H as [Hc Hrest].
  cbn [split]. by rewrite N.eqb_sym, Hc, (IH Hrest).
Qed.

Lemma single_line_pushed buf line :
  single_line line = true → on_stdout_data buf line = push_line buf line.
Proof.
  unfold single_line. intros H. apply andb_true_iff in H as [Hlf Htrim].
  apply negb_true_iff in Hlf.
  unfold on_stdout_data. rewrite (split_no_lf _ Hlf). simpl.
  unfold keep_line. by rewrite Htrim.
Qed.

Lemma tail_drop {A} (l : list A) n : tail (drop n l) = drop (S n) l.
Proof.
  revert l. induction n as [|n IH]; intros [|x l]; simpl; done.
Qed.

(** The shift drops exactly the oldest line. *)
Lemma push_line_drop (lines : list str) line :
  push_line (drop (Z.to_nat (len lines - 10000)) lines) line
  = drop (Z.to_nat (len (lines ++ [line]) - 10000)) (lines ++ [line]).
Proof.
  unfold push_line. rewrite !len_app.
  assert (Hd : len (drop (Z.to_nat (len lines - 10000)) lines)
               = Z.min (len lines) 10000).
  { unfold len. rewrite length_drop. lia. }
  rewrite Hd. change (len [line]) with 1.
  destruct (Z.gtb_spec (Z.min (len lines) 10000 + 1) 10000) as [Hgt|Hle].
  - assert (Hfull : 10000 ≤ len lines) by lia.
    replace (Z.to_nat (len lines + 1 - 10000))
      with (S (Z.to_nat (len lines - 10000))) by lia.
    rewrite (drop_app_le lines [line]) by (unfold len in *; lia).
    rewrite <- tail_drop.
    destruct (drop (Z.to_nat (len lines - 10000)) lines) as [|x rest] eqn:E.
    + apply (f_equal length) in E. rewrite length_drop in E.
      unfold len in *. simpl in E. lia.
    + done.
  - replace (Z.to_nat (len lines - 10000)) with 0%nat by lia.
    replace (Z.to_nat (len lines + 1 - 10000)) with 0%nat by lia.
    done.
Qed.

Lemma lines_pushed (lines : list str) :
  forallb single_line lines = true →
  foldl on_stdout_data [] lines
  = drop (Z.to_nat (len lines - 10000)) lines.
Proof.
  induction lines as [|line lines IH] using rev_ind; intros Hall.
  - done.
  - rewrite forallb_app in Hall. apply andb_true_iff in Hall as [Hl Hx].
    simpl in Hx. rewrite andb_true_r in Hx.
    rewrite foldl_snoc, (IH Hl), (single_line_pushed _ _ Hx).
    apply push_line_drop.
Qed.
End buffer.

(** ** What each piece of the state machine leaves alone *)

(** The four events, each with the look-up of its process done: the
    cases left are the ones where a handler runs. *)
Ltac event_cases ev w :=
  let pid := fresh "pid" in
  destruct ev as [pid ?data|pid ?code|pid|pid]; simpl;
  [ destruct (processes w !! pid ≫= stdout_data); [|done]
  | destruct (processes w !! pid); [|done]
  | destruct (processes w !! pid); [|done]
  | destruct (processes w !! pid); [|done] ].

Section frames.
Implicit Types (w : World) (sid : str) (ev : ProcEvent).

Lemma arrays_mark_stopped sid w : arrays (mark_stopped sid w) = arrays w.
Proof. unfold mark_stopped. by destruct (JsMap.get _ _). Qed.

Lemma arrays_fire h w : arrays (fire h w) = arrays w.
Proof. destruct h; [apply arrays_mark_stopped|done]. Qed.

Lemma processes_mark_stopped sid w :
  processes (mark_stopped sid w) = processes w.
Proof. unfold mark_stopped. by destruct (JsMap.get _ _). Qed.

Lemma processes_fire h w : processes (fire h w) = processes w.
Proof. destruct h; [apply processes_mark_stopped|done]. Qed.

Lemma read_bounded w r : bounded w → len (read r w) ≤ 10000.
Proof.
  intros Hb. unfold read. destruct (arrays w !! r) as [a|] eqn:E; [|done].
  exact (proj1 (Forall_lookup _ _) Hb _ _ E).
Qed.

Lemma write_bounded w r a :
  bounded w → len a ≤ 10000 → bounded (write r a w).
Proof. intros Hb Ha. by apply Forall_insert. Qed.

Lemma deliver_bounded w ev : bounded w → bounded (deliver w ev).
Proof.
  intros Hb. event_cases ev w.
  - apply write_bounded; [done|].
    by apply on_stdout_data_bounded, read_bounded.
  - unfold bounded. by rewrite arrays_fire.
  - unfold bounded. by rewrite arrays_fire.
  - unfold bounded. by rewrite arrays_fire.
Qed.

Lemma deliver_all_bounded evs w : bounded w → bounded (deliver_all evs w).
Proof.
  unfold deliver_all. revert w.
  induction evs as [|ev evs IH]; intros w Hb; simpl; [done|].
  by apply IH, deliver_bounded.
Qed.

Lemma new_array_bounded w : bounded w → bounded (new_array w).2.
Proof.
  intros Hb. unfold bounded. simpl. apply Forall_app. split; [done|].
  by repeat constructor.
Qed.

Lemma detect_device_bounded provided env w :
  bounded w → bounded (detect_device provided env w).2.
Proof.
  intros Hb. unfold detect_device. destruct (falsy provided); [|done].
  destruct (lookup env); by apply deliver_all_bounded.
Qed.

Lemma android_launch_bounded sid d b settle w :
  bounded w → bounded (Android.launch sid d b settle w).2.
Proof. intros Hb. by apply deliver_all_bounded. Qed.

Lemma ios_launch_bounded sid d b settle w :
  bounded w → bounded (Ios.launch sid d b settle w).2.
Proof. intros Hb. by apply deliver_all_bounded. Qed.

Lemma start_bounded args env w :
  bounded w → bounded (executeStartLogBroadcast args env w).2.
Proof.
  intros Hb. unfold executeStartLogBroadcast.
  destruct (already_streaming _ w); [done|].
  pose proof (detect_device_bounded (arg_deviceId args) env w Hb) as H1.
  destruct (detect_device _ env w) as [d w1]. simpl in H1.
  pose proof (new_array_bounded w1 H1) as H2.
  destruct (new_array w1) as [b w2]. simpl in H2.
  destruct (arg_platform args).
  - unfold startAndroidLogs.
    pose proof (android_launch_bounded (arg_sessionId args) d b
                  (during_settle env) w2 H2) as H3.
    destruct (Android.launch _ _ _ _ w2) as [p w3]. simpl in H3.
    by destruct (exit_code p w3).
  - unfold startIosLogs.
    pose proof (ios_launch_bounded (arg_sessionId args) d b
                  (during_settle env) w2 H2) as H3.
    destruct (Ios.launch _ _ _ _ w2) as [p w3]. simpl in H3.
    by destruct (exit_code p w3).
Qed.

Lemma stop_bounded sid k w :
  bounded w → bounded (executeStopLogBroadcast sid k w).2.
Proof.
  intros Hb. unfold executeStopLogBroadcast.
  destruct (JsMap.get sid _) as [session|]; [|done].
  destruct (logProcess session) as [pid|]; [|done].
  by destruct k.
Qed.

Lemma get_unchanged sid maxLines w : (executeGetLogs sid maxLines w).2 = w.
Proof. unfold executeGetLogs. by destruct (JsMap.get sid _). Qed.

Lemma clear_bounded sid w :
  bounded w → bounded (executeClearLogBuffer sid w).2.
Proof.
  intros Hb. unfold executeClearLogBuffer.
  destruct (JsMap.get sid _) as [session|]; [|done].
  by apply write_bounded.
Qed.

Lemma step_bounded w a : bounded w → bounded (step w a).
Proof.
  intros Hb. destruct a; simpl.
  - by apply start_bounded.
  - by apply stop_bounded.
  - by rewrite get_unchanged.
  - by apply clear_bounded.
  - by apply deliver_bounded.
Qed.

Lemma run_bounded history : bounded (run history).
Proof.
  unfold run. assert (H0 : bounded initial) by constructor.
  revert H0. generalize initial as w.
  induction history as [|a history IH]; intros w Hb; simpl; [done|].
  by apply IH, step_bounded.
Qed.
End frames.

(** C1.  However tool calls and process events interleave, no array that
    a handler fills ever holds more than 10000 lines; so does the buffer
    after every chunk of any stream of chunks.  When the chunks are
    single non-blank lines, the buffer is the last 10000 of them in the
    order they came: after 10050 lines, the first 50 are gone and the
    other 10000 stand as pushed. *)
Theorem buffer_capacity_fifo :
  (∀ history : list Action,
      Forall (λ a : list str, len a ≤ 10000) (arrays (run history)))
  ∧ (∀ chunks : list str, len (foldl on_stdout_data [] chunks) ≤ 10000)
  ∧ (∀ lines : list str,
        forallb single_line lines = true →
        foldl on_stdout_data [] lines
        = drop (Z.to_nat (len lines - 10000)) lines
        ∧ (len lines = 10050 →
           foldl on_stdout_data [] lines = drop 50 lines
           ∧ len (foldl on_stdout_data [] lines) = 10000)).
Proof.
  split; [exact run_bounded|].
  split; [intros chunks; by apply chunks_bounded|].
  intros lines Hall. rewrite (lines_pushed _ Hall).
  split; [done|]. intros Hlen. rewrite Hlen.
  split; [done|].
  unfold len in *. rewrite length_drop. lia.
Qed.

(** The theorem at 10050 numbered lines. *)
Lemma buffer_capacity_fifo_witness :
  foldl on_stdout_data [] (numbered_lines (Z.to_nat 10050))
  = drop 50 (numbered_lines (Z.to_nat 10050))
  ∧ len (foldl on_stdout_data [] (numbered_lines (Z.to_nat 10050))) = 10000.
Proof.
  refine (proj2 (proj2 (proj2 buffer_capacity_fifo) (numbered_lines (Z.to_nat 10050)) _) _).
  - vm_compute. reflexivity.
  - vm_compute. reflexivity.
Defined.

(** ** The session map *)

Section jsmap.
Context {V : Type}.
Implicit Types (m : JsMap.t V) (k : str) (v : V).

Lemma get_set_eq k v m : JsMap.get k (JsMap.set k v m) = Some v.
Proof.
  induction m as [|[k' v'] m IH]; simpl.
  - by rewrite decide_True.
  - destruct (decide (k' = k)) as [->|Hne]; simpl.
    + by rewrite decide_True.
    + by rewrite decide_False.
Qed.

Lemma get_set_ne k k' v m :
  k ≠ k' → JsMap.get k' (JsMap.set k v m) = JsMap.get k' m.
Proof.
  intros Hne. induction m as [|[k0 v0] m IH]; simpl.
  - by rewrite decide_False.
  - destruct (decide (k0 = k)) as [->|Hne0]; simpl.
    + by rewrite !decide_False.
    + by rewrite IH.
Qed.

Lemma set_same k v m : JsMap.get k m = Some v → JsMap.set k v m = m.
Proof.
  induction m as [|[k0 v0] m IH]; simpl; [done|].
  destruct (decide (k0 = k)) as [->|Hne]; [by intros [= ->]|].
  intros H. by rewrite (IH H).
Qed.

Lemma get_delete_eq k m : JsMap.get k (JsMap.delete k m) = None.
Proof.
  induction m as [|[k0 v0] m IH]; simpl; [done|].
  destruct (decide (k0 = k)) as [->|Hne]; simpl; [done|].
  by rewrite decide_False.
Qed.

Lemma get_delete_ne k k' m :
  k ≠ k' → JsMap.get k' (JsMap.delete k m) = JsMap.get k' m.
Proof.
  intros Hne. induction m as [|[k0 v0] m IH]; simpl; [done|].
  destruct (decide (k0 = k)) as [->|Hne0]; simpl.
  - by rewrite decide_False.
  - by rewrite IH.
Qed.

Lemma delete_filter k m :
  JsMap.delete k m = filter (λ kv, kv.1 ≠ k) m.
Proof.
  induction m as [|[k0 v0] m IH]; [done|]. cbn [JsMap.delete].
  destruct (decide (k0 = k)) as [->|Hne].
  - by rewrite filter_cons_False by (simpl; auto).
  - by rewrite filter_cons_True, IH by done.
Qed.

Lemma keys_delete k m : k ∉ JsMap.keys (JsMap.delete k m).
Proof.
  unfold JsMap.keys. rewrite delete_filter, list_elem_of_fmap.
  intros ([k0 v0] & -> & Hin). apply list_elem_of_filter in Hin as [Hk _].
  by apply Hk.
Qed.

Lemma get_None_keys k m : JsMap.get k m = None → k ∉ JsMap.keys m.
Proof.
  induction m as [|[k0 v0] m IH]; simpl.
  - intros _. apply not_elem_of_nil.
  - destruct (decide (k0 = k)) as [->|Hne]; [done|].
    intros H. apply not_elem_of_cons. split; [done|by apply IH].
Qed.

Lemma get_delete_absent k m : JsMap.get k m = None → JsMap.delete k m = m.
Proof.
  induction m as [|[k0 v0] m IH]; simpl; [done|].
  destruct (decide (k0 = k)) as [->|Hne]; [done|].
  intros H. by rewrite (IH H).
Qed.
End jsmap.

(** ** Process events and the session map *)

Section events.
Implicit Types (w v : World) (sid : str) (ev : ProcEvent).

Lemma stop_streaming_stopped (s : LogSession) :
  isStreaming s = false → stop_streaming s = s.
Proof. destruct s; simpl; by intros ->. Qed.

Lemma guard_quiet sid w :
  already_streaming sid w = None → quiet sid (activeSessions w).
Proof.
  unfold already_streaming, quiet, JsMap.has.
  destruct (JsMap.get sid (activeSessions w)) as [s|]; [|done].
  by destruct (isStreaming s).
Qed.

Lemma sessions_mark_stopped_quiet sid w :
  quiet sid (activeSessions w) →
  activeSessions (mark_stopped sid w) = activeSessions w.
Proof.
  unfold quiet, mark_stopped.
  destruct (JsMap.get sid (activeSessions w)) as [s|] eqn:E; [|done].
  intros Hs. simpl. rewrite (stop_streaming_stopped _ Hs).
  by apply set_same.
Qed.

Lemma get_mark_stopped sid' sid w :
  JsMap.get sid (activeSessions (mark_stopped sid' w))
  = if decide (sid' = sid)
    then stop_streaming <$> JsMap.get sid (activeSessions w)
    else JsMap.get sid (activeSessions w).
Proof.
  unfold mark_stopped.
  destruct (JsMap.get sid' (activeSessions w)) as [s|] eqn:E; simpl.
  - destruct (decide (sid' = sid)) as [<-|Hne].
    + by rewrite get_set_eq, E.
    + by rewrite get_set_ne.
  - destruct (decide (sid' = sid)) as [<-|Hne]; [by rewrite E|done].
Qed.

Lemma quiet_mark_stopped sid' sid w :
  quiet sid (activeSessions w) →
  quiet sid (activeSessions (mark_stopped sid' w)).
Proof.
  unfold quiet. rewrite get_mark_stopped.
  destruct (decide (sid' = sid)); [|done].
  by destruct (JsMap.get sid (activeSessions w)).
Qed.

Lemma quiet_fire h sid w :
  quiet sid (activeSessions w) → quiet sid (activeSessions (fire h w)).
Proof. destruct h; [apply quiet_mark_stopped|done]. Qed.

Lemma sessions_fire_eq h w v :
  activeSessions v = activeSessions w →
  activeSessions (fire h v) = activeSessions (fire h w).
Proof.
  intros E. destruct h as [sid|]; [|done]. simpl. unfold mark_stopped.
  rewrite E. by destruct (JsMap.get sid (activeSessions w)); simpl; rewrite ?E.
Qed.

Lemma quiet_deliver sid w ev :
  quiet sid (activeSessions w) → quiet sid (activeSessions (deliver w ev)).
Proof.
  intros Hq. event_cases ev w; [done|by apply quiet_fire..].
Qed.

Lemma quiet_deliver_all sid evs w :
  quiet sid (activeSessions w) →
  quiet sid (activeSessions (deliver_all evs w)).
Proof.
  unfold deliver_all. revert w.
  induction evs as [|ev evs IH]; intros w Hq; simpl; [done|].
  by apply IH, quiet_deliver.
Qed.

Lemma one_more_deliver sid w v ev :
  one_more sid w v → one_more sid (deliver w ev) (deliver v ev).
Proof.
  intros (Hs & Hq & p & Hp & Herr & Hclose).
  assert (Hold : ∀ pid q, processes w !! pid = Some q →
                          processes v !! pid = Some q).
  { intros pid q Hl. rewrite Hp. by apply lookup_app_l_Some. }
  assert (Hnew : ∀ pid, processes w !! pid = None →
            processes v !! pid
            = if decide (pid = length (processes w)) then Some p else None).
  { intros pid Hl. apply lookup_ge_None in Hl. rewrite Hp.
    destruct (decide (pid = length (processes w))) as [->|Hne].
    - by rewrite lookup_app_r, Nat.sub_diag by lia.
    - apply lookup_ge_None. rewrite length_app. simpl. lia. }
  assert (Halter : ∀ pid f q, processes w !! pid = Some q →
            alter f pid (processes v) = alter f pid (processes w) ++ [p]).
  { intros pid f q Hl. rewrite Hp.
    apply alter_app_l. by eapply lookup_lt_Some. }
  destruct ev as [pid data|pid code|pid|pid]; simpl.
  - (* stdout data touches arrays only *)
    split; [|split; [|exists p; split; [|done]]].
    + destruct (processes v !! pid ≫= stdout_data),
               (processes w !! pid ≫= stdout_data); done.
    + by destruct (processes w !! pid ≫= stdout_data).
    + destruct (processes v !! pid ≫= stdout_data),
               (processes w !! pid ≫= stdout_data); done.
  - destruct (processes w !! pid) as [q|] eqn:Hl.
    + rewrite (Hold _ _ Hl).
      split; [by apply sessions_fire_eq|].
      split; [by apply quiet_fire|].
      exists p. rewrite !processes_fire. simpl.
      by rewrite (Halter _ _ _ Hl).
    + rewrite (Hnew _ Hl).
      destruct (decide (pid = length (processes w))) as [->|Hne];
        [|by split; [|split; [|exists p]]].
      rewrite Hclose. simpl.
      split; [by rewrite sessions_mark_stopped_quiet; simpl; rewrite ?Hs|].
      split; [done|].
      eexists. rewrite processes_mark_stopped. simpl. rewrite Hp.
      rewrite alter_app_r_alt, Nat.sub_diag by lia. simpl. done.
  - destruct (processes w !! pid) as [q|] eqn:Hl.
    + rewrite (Hold _ _ Hl).
      split; [by apply sessions_fire_eq|].
      split; [by apply quiet_fire|].
      exists p. by rewrite !processes_fire.
    + rewrite (Hnew _ Hl).
      destruct (decide (pid = length (processes w))) as [->|Hne];
        [|by split; [|split; [|exists p]]].
      rewrite Hclose. simpl.
      split; [by rewrite sessions_mark_stopped_quiet; rewrite ?Hs|].
      split; [done|].
      exists p. by rewrite processes_mark_stopped.
  - destruct (processes w !! pid) as [q|] eqn:Hl.
    + rewrite (Hold _ _ Hl).
      split; [by apply sessions_fire_eq|].
      split; [by apply quiet_fire|].
      exists p. by rewrite !processes_fire.
    + rewrite (Hnew _ Hl).
      destruct (decide (pid = length (processes w))) as [->|Hne];
        [|by split; [|split; [|exists p]]].
      rewrite Herr. simpl.
      split; [by rewrite sessions_mark_stopped_quiet; rewrite ?Hs|].
      split; [done|].
      exists p. by rewrite processes_mark_stopped.
Qed.

Lemma one_more_deliver_all sid evs w v :
  one_more sid w v →
  one_more sid (deliver_all evs w) (deliver_all evs v).
Proof.
  unfold deliver_all. revert w v.
  induction evs as [|ev evs IH]; intros w v H; simpl; [done|].
  by apply IH, one_more_deliver.
Qed.
End events.

Section start.
Implicit Types (w v : World) (sid : str) (ev : ProcEvent).

Lemma same_control_deliver w v ev :
  same_control w v → same_control (deliver w ev) (deliver v ev).
Proof.
  intros [Hs Hp]. destruct ev as [pid data|pid code|pid|pid]; simpl;
    rewrite Hp.
  - by destruct (processes w !! pid ≫= stdout_data).
  - destruct (processes w !! pid); [|done]. split.
    + by apply sessions_fire_eq.
    + rewrite !processes_fire. simpl. by rewrite Hp.
  - destruct (processes w !! pid); [|done]. split.
    + by apply sessions_fire_eq.
    + by rewrite !processes_fire.
  - destruct (processes w !! pid); [|done]. split.
    + by apply sessions_fire_eq.
    + by rewrite !processes_fire.
Qed.

Lemma same_control_deliver_all evs w v :
  same_control w v → same_control (deliver_all evs w) (deliver_all evs v).
Proof.
  unfold deliver_all. revert w v.
  induction evs as [|ev evs IH]; intros w v H; simpl; [done|].
  by apply IH, same_control_deliver.
Qed.

Lemma get_deliver_quiet sid w ev :
  quiet sid (activeSessions w) →
  JsMap.get sid (activeSessions (deliver w ev))
  = JsMap.get sid (activeSessions w).
Proof.
  intros Hq.
  assert (Hfire : ∀ h v, quiet sid (activeSessions v) →
            JsMap.get sid (activeSessions (fire h v))
            = JsMap.get sid (activeSessions v)).
  { intros [sid'|] v Hv; [|done]. simpl. rewrite get_mark_stopped.
    destruct (decide (sid' = sid)); [|done].
    unfold quiet in Hv. destruct (JsMap.get sid (activeSessions v)); [|done].
    simpl. by rewrite stop_streaming_stopped. }
  event_cases ev w; [done|by rewrite Hfire..].
Qed.

Lemma get_deliver_all_quiet sid evs w :
  quiet sid (activeSessions w) →
  JsMap.get sid (activeSessions (deliver_all evs w))
  = JsMap.get sid (activeSessions w).
Proof.
  unfold deliver_all. revert w.
  induction evs as [|ev evs IH]; intros w Hq; simpl; [done|].
  rewrite IH by by apply quiet_deliver. by apply get_deliver_quiet.
Qed.

(** The state after [spawn] and the three [.on] calls. *)
Lemma spawn_listen_one_more sid file args sh buffer w :
  quiet sid (activeSessions w) →
  one_more sid w
    (listen_close (spawn file args sh w).1 sid
       (listen_error (spawn file args sh w).1 sid
          (listen_stdout (spawn file args sh w).1 buffer
             (spawn file args sh w).2))).
Proof.
  intros Hq. split; [done|]. split; [done|].
  unfold listen_close, listen_error, listen_stdout, with_process, spawn.
  simpl. eexists. split.
  - rewrite !alter_app_r_alt, Nat.sub_diag by done. simpl. done.
  - done.
Qed.

Lemma detect_device_world provided env w :
  (detect_device provided env w).2
  = deliver_all (if falsy provided then during_lookup env else []) w.
Proof.
  unfold detect_device. destruct (falsy provided); [|done].
  by destruct (lookup env).
Qed.

(** The session map at the end of the settle delay is the one the
    process events alone would have made. *)
Lemma sessions_at_settle_end args env w :
  quiet (arg_sessionId args) (activeSessions w) →
  activeSessions (at_settle_end args env w).2
  = activeSessions (deliver_all (interleaved args env) w).
Proof.
  intros Hq. unfold at_settle_end, interleaved.
  pose proof (detect_device_world (arg_deviceId args) env w) as Hw1.
  destruct (detect_device (arg_deviceId args) env w) as [d w1].
  simpl in Hw1.
  set (evs := if falsy (arg_deviceId args) then during_lookup env else [])
    in *.
  assert (Hq1 : quiet (arg_sessionId args) (activeSessions w1)).
  { rewrite Hw1. by apply quiet_deliver_all. }
  unfold deliver_all at 1. rewrite foldl_app.
  fold (deliver_all evs w). rewrite <- Hw1.
  fold (deliver_all (during_settle env) w1).
  assert (Hsame : same_control w1 (new_array w1).2) by done.
  apply (same_control_deliver_all (during_settle env)) in Hsame.
  destruct Hsame as [Hs _]. rewrite <- Hs.
  assert (Hq2 : quiet (arg_sessionId args) (activeSessions (new_array w1).2))
    by done.
  destruct (new_array w1) as [b w2]. simpl in *.
  destruct (arg_platform args); simpl.
  - pose proof (spawn_listen_one_more _ (Android.adbCmd d) [] true b _ Hq2)
      as H1.
    apply (one_more_deliver_all _ (during_settle env)) in H1.
    by destruct H1 as [H1 _].
  - pose proof (spawn_listen_one_more _ (Ios.file (Ios.plan d))
                  (Ios.args (Ios.plan d)) false b _ Hq2) as H1.
    apply (one_more_deliver_all _ (during_settle env)) in H1.
    by destruct H1 as [H1 _].
Qed.

(** The call is the check of [exitCode] on the state at the end of the
    settle delay. *)
Lemma start_after_settle args env w :
  already_streaming (arg_sessionId args) w = None →
  executeStartLogBroadcast args env w
  = let d := (detect_device (arg_deviceId args) env w).1 in
    let '(logProcess, w') := at_settle_end args env w in
    match exit_code logProcess w' with
    | Some code => (Throw (startup_failure (arg_platform args) d code), w')
    | None =>
        (Content (match arg_platform args with
                  | android => Android.started_text (arg_sessionId args) d
                  | ios => Ios.started_text (arg_sessionId args) d
                  end),
         with_sessions
           (JsMap.set (arg_sessionId args)
              (mkLogSession (arg_sessionId args)
                 (or_else (arg_serverUrl args) (js "http://localhost:4723"))
                 (arg_platform args) d (Some logProcess)
                 (length (arrays (detect_device (arg_deviceId args) env w).2))
                 true)) w')
    end.
Proof.
  intros Hg. unfold executeStartLogBroadcast, at_settle_end. rewrite Hg.
  destruct (detect_device (arg_deviceId args) env w) as [d w1].
  unfold new_array. cbn [fst snd].
  destruct (arg_platform args); reflexivity.
Qed.
End start.

(** The failure texts and the started texts, written out.  Which iOS
    text it is goes by the test of the device id the launcher got. *)
Lemma startup_failure_eq (p : Platform) (d : option str) (code : Z) :
  startup_failure p d code
  = match p with
    | android =>
        js "Failed to start adb logcat (exit code: " ++ of_number code
        ++ js "). Make sure adb is installed and device is connected. Try running 'adb devices' to verify."
    | ios =>
        match narrow d with
        | Some id =>
            if includes 45 id || (len id >? 25)
            then js "Failed to start iOS simulator logs. Make sure Xcode is installed and simulator is running."
            else js "Failed to start iOS device logs. Make sure 'idevicesyslog' is installed (brew install libimobiledevice) and device is connected."
        | None =>
            js "Failed to start iOS device logs. Make sure 'idevicesyslog' is installed (brew install libimobiledevice) and device is connected."
        end
    end.
Proof.
  destruct p; [done|]. unfold startup_failure, Ios.failure, Ios.isSimulator.
  destruct (narrow d) as [id|]; [|done].
  by destruct (includes 45 id || (len id >? 25)).
Qed.

(** C2.  A start that passes the duplicate guard and finds the spawned
    process with a non-null [exitCode] at the end of the settle delay
    throws the remediation message of its platform: for android the one
    about adb, with the exit code; for ios the one about Xcode and the
    simulator when the device id in use has a hyphen or more than 25
    code units, the one about idevicesyslog otherwise.  It writes
    nothing to the session map: the map is the one that the process
    events of the meantime alone produce, and what it holds under the
    session id is what it held before the call. *)
Theorem failed_start_registers_nothing
    (args : StartArgs) (env : StartEnv) (w : World) (code : Z) :
  already_streaming (arg_sessionId args) w = None →
  exit_code (at_settle_end args env w).1 (at_settle_end args env w).2
  = Some code →
  executeStartLogBroadcast args env w
  = (Throw
       match arg_platform args with
       | android =>
           js "Failed to start adb logcat (exit code: " ++ of_number code
           ++ js "). Make sure adb is installed and device is connected. Try running 'adb devices' to verify."
       | ios =>
           match narrow (detect_device (arg_deviceId args) env w).1 with
           | Some id =>
               if includes 45 id || (len id >? 25)
               then js "Failed to start iOS simulator logs. Make sure Xcode is installed and simulator is running."
               else js "Failed to start iOS device logs. Make sure 'idevicesyslog' is installed (brew install libimobiledevice) and device is connected."
           | None =>
               js "Failed to start iOS device logs. Make sure 'idevicesyslog' is installed (brew install libimobiledevice) and device is connected."
           end
       end,
     (at_settle_end args env w).2)
  ∧ activeSessions (executeStartLogBroadcast args env w).2
    = activeSessions (deliver_all (interleaved args env) w)
  ∧ JsMap.get (arg_sessionId args)
      (activeSessions (executeStartLogBroadcast args env w).2)
    = JsMap.get (arg_sessionId args) (activeSessions w).
Proof.
  intros Hg Hexit.
  assert (Hrun : executeStartLogBroadcast args env w
    = (Throw (startup_failure (arg_platform args)
                (detect_device (arg_deviceId args) env w).1 code),
       (at_settle_end args env w).2)).
  { rewrite (start_after_settle _ _ _ Hg). simpl.
    destruct (at_settle_end args env w) as [p w']. simpl in *.
    by rewrite Hexit. }
  rewrite Hrun, startup_failure_eq. split; [done|]. simpl.
  pose proof (guard_quiet _ _ Hg) as Hq.
  rewrite (sessions_at_settle_end _ _ _ Hq).
  split; [done|]. by apply get_deliver_all_quiet.
Qed.

(** Three failed starts of a session s2 beside the streaming s1: on a
    simulator whose [xcrun] exits with 1, on android where the shell
    does not find [adb] and exits with 127, and on a device where
    [idevicesyslog] cannot be spawned (status -2). *)
Lemma failed_start_registers_nothing_witness :
  (executeStartLogBroadcast s2_simulator xcrun_exits s1_streaming
   = (Throw (js "Failed to start iOS simulator logs. Make sure Xcode is installed and simulator is running."),
      (at_settle_end s2_simulator xcrun_exits s1_streaming).2)
   ∧ activeSessions
       (executeStartLogBroadcast s2_simulator xcrun_exits s1_streaming).2
     = activeSessions
         (deliver_all (interleaved s2_simulator xcrun_exits) s1_streaming)
   ∧ JsMap.get (js "s2")
       (activeSessions
          (executeStartLogBroadcast s2_simulator xcrun_exits s1_streaming).2)
     = JsMap.get (js "s2") (activeSessions s1_streaming))
  ∧ (executeStartLogBroadcast s2_android (exits_with 127) s1_streaming).1
    = Throw (js "Failed to start adb logcat (exit code: 127). Make sure adb is installed and device is connected. Try running 'adb devices' to verify.")
  ∧ (executeStartLogBroadcast s2_device (exits_with (-2)) s1_streaming).1
    = Throw (js "Failed to start iOS device logs. Make sure 'idevicesyslog' is installed (brew install libimobiledevice) and device is connected.")
  ∧ activeSessions
      (executeStartLogBroadcast s2_android (exits_with 127) s1_streaming).2
    = activeSessions s1_streaming.
Proof.
  split; [|split; [|split]].
  - apply (failed_start_registers_nothing s2_simulator xcrun_exits
             s1_streaming 1); vm_compute; reflexivity.
  - exact (f_equal fst (proj1 (failed_start_registers_nothing s2_android
             (exits_with 127) s1_streaming 127 eq_refl eq_refl))).
  - exact (f_equal fst (proj1 (failed_start_registers_nothing s2_device
             (exits_with (-2)) s1_streaming (-2) eq_refl eq_refl))).
  - exact (proj1 (proj2 (failed_start_registers_nothing s2_android
             (exits_with 127) s1_streaming 127 eq_refl eq_refl))).
Defined.

(** The duplicate-start guard answers before anything is resolved or
    spawned. *)
Lemma guard_hit (args : StartArgs) (env : StartEnv) (w : World)
    (session : LogSession) :
  JsMap.get (arg_sessionId args) (activeSessions w) = Some session →
  isStreaming session = true →
  executeStartLogBroadcast args env w
  = (Content (already_active_text (arg_sessionId args) session), w).
Proof.
  intros Hget Hs. unfold executeStartLogBroadcast, already_streaming,
    JsMap.has. by rewrite Hget, Hs.
Qed.

(** C3, as the code has it.  A start for a session id that is registered
    and streaming spawns nothing and changes nothing; it answers
    "Log streaming is already active for session <id>" with the
    session's device, and answers the same to every further start while
    the session streams. *)
Theorem duplicate_start_guard
    (args : StartArgs) (env env' : StartEnv) (w : World)
    (session : LogSession) :
  JsMap.get (arg_sessionId args) (activeSessions w) = Some session →
  isStreaming session = true →
  executeStartLogBroadcast args env w
  = (Content (js "Log streaming is already active for session "
              ++ arg_sessionId args ++ lf ++ js "Device: "
              ++ or_else (deviceId session) (js "default")), w)
  ∧ processes (executeStartLogBroadcast args env w).2 = processes w
  ∧ executeStartLogBroadcast args env'
      (executeStartLogBroadcast args env w).2
    = executeStartLogBroadcast args env w.
Proof.
  intros Hget Hs. rewrite (guard_hit args env w session Hget Hs).
  split; [done|]. split; [done|]. simpl.
  by rewrite (guard_hit args env' w session Hget Hs).
Qed.

Lemma duplicate_start_guard_witness :
  executeStartLogBroadcast s1_android undisturbed s1_streaming
  = (Content (js "Log streaming is already active for session "
              ++ js "s1" ++ lf ++ js "Device: " ++ js "default"),
     s1_streaming)
  ∧ processes
      (executeStartLogBroadcast s1_android undisturbed s1_streaming).2
    = processes s1_streaming
  ∧ executeStartLogBroadcast s1_android xcrun_exits
      (executeStartLogBroadcast s1_android undisturbed s1_streaming).2
    = executeStartLogBroadcast s1_android undisturbed s1_streaming.
Proof.
  refine (duplicate_start_guard s1_android undisturbed xcrun_exits
            s1_streaming
            (mkLogSession (js "s1") (js "http://localhost:4723") android
                          None (Some 0%nat) 0%nat true) _ _);
    vm_compute; reflexivity.
Defined.

(** C3, as the spec has it, fails: the first start of s1 answers
    "Started Android log streaming ...", the second start, made while s1
    streams, answers "Log streaming is already active ...". *)
Lemma second_start_text_differs :
  (∃ session,
      JsMap.get (js "s1") (activeSessions s1_streaming) = Some session
      ∧ isStreaming session = true)
  ∧ (executeStartLogBroadcast s1_android undisturbed initial).1
    = Content (Android.started_text (js "s1") None)
  ∧ (executeStartLogBroadcast s1_android undisturbed s1_streaming).1
    = Content (js "Log streaming is already active for session s1"
               ++ lf ++ js "Device: default")
  ∧ (executeStartLogBroadcast s1_android undisturbed s1_streaming).1
    ≠ (executeStartLogBroadcast s1_android undisturbed initial).1.
Proof.
  split; [eexists; split; vm_compute; reflexivity|].
  split; [vm_compute; reflexivity|].
  split; [vm_compute; reflexivity|].
  vm_compute. discriminate.
Qed.

(** ** Every session sits under its own id *)

Section keys.
Context {V : Type} (P : str * V → Prop).
Implicit Types (m : JsMap.t V) (k : str) (v : V).

Lemma Forall_get m k v : Forall P m → JsMap.get k m = Some v → P (k, v).
Proof.
  induction m as [|[k0 v0] m IH]; simpl; [done|].
  intros Hall. apply Forall_cons in Hall as [H0 Hall].
  destruct (decide (k0 = k)) as [->|Hne]; [by intros [= <-]|by apply IH].
Qed.

Lemma Forall_set m k v : Forall P m → P (k, v) → Forall P (JsMap.set k v m).
Proof.
  intros Hall Hkv. induction m as [|[k0 v0] m IH]; simpl.
  - by repeat constructor.
  - apply Forall_cons in Hall as [H0 Hall].
    destruct (decide (k0 = k)); constructor; auto.
Qed.

Lemma Forall_delete m k : Forall P m → Forall P (JsMap.delete k m).
Proof.
  intros Hall. rewrite delete_filter. apply Forall_forall. intros x Hx.
  apply list_elem_of_filter in Hx as [_ Hx].
  by apply (proj1 (Forall_forall _ _) Hall).
Qed.
End keys.

Section well_keyed.
Implicit Types (w : World) (sid : str) (ev : ProcEvent).

Lemma mark_stopped_well_keyed sid w :
  well_keyed w → well_keyed (mark_stopped sid w).
Proof.
  intros Hk. unfold mark_stopped.
  destruct (JsMap.get sid (activeSessions w)) as [s|] eqn:E; [|done].
  apply Forall_set; [done|]. simpl.
  by apply (Forall_get _ _ _ _ Hk E).
Qed.

Lemma fire_well_keyed h w : well_keyed w → well_keyed (fire h w).
Proof. destruct h; [apply mark_stopped_well_keyed|done]. Qed.

Lemma deliver_well_keyed w ev : well_keyed w → well_keyed (deliver w ev).
Proof.
  intros Hk. event_cases ev w; [done|by apply fire_well_keyed..].
Qed.

Lemma deliver_all_well_keyed evs w :
  well_keyed w → well_keyed (deliver_all evs w).
Proof.
  unfold deliver_all. revert w.
  induction evs as [|ev evs IH]; intros w Hk; simpl; [done|].
  by apply IH, deliver_well_keyed.
Qed.

Lemma start_well_keyed args env w :
  well_keyed w → well_keyed (executeStartLogBroadcast args env w).2.
Proof.
  intros Hk. unfold executeStartLogBroadcast.
  destruct (already_streaming _ w); [done|].
  assert (H1 : well_keyed (detect_device (arg_deviceId args) env w).2).
  { unfold detect_device. destruct (falsy _); [|done].
    destruct (lookup env); by apply deliver_all_well_keyed. }
  destruct (detect_device _ env w) as [d w1]. simpl in H1.
  destruct (arg_platform args); simpl.
  - unfold startAndroidLogs.
    assert (H3 : well_keyed
              (Android.launch (arg_sessionId args) d (length (arrays w1))
                 (during_settle env) (new_array w1).2).2)
      by by apply deliver_all_well_keyed.
    destruct (Android.launch _ _ _ _ _) as [p w3]. simpl in H3.
    destruct (exit_code p w3); [done|]. by apply Forall_set.
  - unfold startIosLogs.
    assert (H3 : well_keyed
              (Ios.launch (arg_sessionId args) d (length (arrays w1))
                 (during_settle env) (new_array w1).2).2)
      by by apply deliver_all_well_keyed.
    destruct (Ios.launch _ _ _ _ _) as [p w3]. simpl in H3.
    destruct (exit_code p w3); [done|]. by apply Forall_set.
Qed.

Lemma stop_sessions sid k w :
  activeSessions (executeStopLogBroadcast sid k w).2
  = JsMap.delete sid (activeSessions w).
Proof.
  unfold executeStopLogBroadcast.
  destruct (JsMap.get sid (activeSessions w)) as [session|] eqn:E.
  - destruct (logProcess session) as [pid|]; [|done]. by destruct k.
  - simpl. by rewrite get_delete_absent.
Qed.

Lemma clear_sessions sid w :
  activeSessions (executeClearLogBuffer sid w).2 = activeSessions w.
Proof.
  unfold executeClearLogBuffer.
  by destruct (JsMap.get sid (activeSessions w)).
Qed.

Lemma step_well_keyed w a : well_keyed w → well_keyed (step w a).
Proof.
  intros Hk. destruct a; simpl.
  - by apply start_well_keyed.
  - unfold well_keyed. rewrite stop_sessions. by apply Forall_delete.
  - by rewrite get_unchanged.
  - unfold well_keyed. by rewrite clear_sessions.
  - by apply deliver_well_keyed.
Qed.

Lemma run_well_keyed history : well_keyed (run history).
Proof.
  unfold run. assert (H0 : well_keyed initial) by constructor.
  revert H0. generalize initial as w.
  induction history as [|a history IH]; intros w Hk; simpl; [done|].
  by apply IH, step_well_keyed.
Qed.

Lemma listed_without sid w :
  well_keyed w → JsMap.get sid (activeSessions w) = None →
  Forall (λ s, sessionId s ≠ sid) (listed w).
Proof.
  intros Hk Hnone. unfold listed, JsMap.values.
  apply Forall_fmap, Forall_forall. intros [k v] Hin. simpl.
  pose proof (proj1 (Forall_forall _ _) Hk _ Hin) as Hkey. simpl in Hkey.
  rewrite Hkey. intros ->.
  apply (get_None_keys _ _ Hnone). unfold JsMap.keys.
  apply list_elem_of_fmap. by exists (sid, v).
Qed.
End well_keyed.

(** ** The four tools on one session *)

(** C4, as the code has it.  Stopping a registered session always takes
    it out of the session map, so that [list_log_sessions] no longer
    shows it, and leaves every buffer as it was.  When [kill] returns,
    delivered or not, the answer is the stop text with the number of
    lines the buffer held; when [kill] throws, the call throws
    "Error stopping log streaming: <message>" after the removal. *)
Theorem stop_removes_session
    (sid : str) (k : KillResult) (w : World) (session : LogSession) :
  JsMap.get sid (activeSessions w) = Some session →
  activeSessions (executeStopLogBroadcast sid k w).2
  = JsMap.delete sid (activeSessions w)
  ∧ JsMap.get sid (activeSessions (executeStopLogBroadcast sid k w).2) = None
  ∧ (well_keyed w →
     Forall (λ s, sessionId s ≠ sid)
            (listed (executeStopLogBroadcast sid k w).2))
  ∧ arrays (executeStopLogBroadcast sid k w).2 = arrays w
  ∧ (executeStopLogBroadcast sid k w).1
    = match logProcess session, k with
      | Some _, KillThrows message =>
          Throw (js "Error stopping log streaming: " ++ message)
      | _, _ =>
          Content (check_mark ++ js " Stopped log streaming for session "
                   ++ sid ++ lf ++ js "Device: "
                   ++ or_else (deviceId session) (js "default") ++ lf
                   ++ js "Total logs captured: "
                   ++ of_number (len (read (logBuffer session) w))
                   ++ js " lines")
      end.
Proof.
  intros Hget.
  assert (Hnone :
    JsMap.get sid (activeSessions (executeStopLogBroadcast sid k w).2) = None).
  { rewrite stop_sessions. apply get_delete_eq. }
  split; [apply stop_sessions|]. split; [done|]. split.
  - intros Hk. apply listed_without; [|done].
    unfold well_keyed. rewrite stop_sessions. by apply Forall_delete.
  - unfold executeStopLogBroadcast. rewrite Hget.
    destruct (logProcess session) as [pid|]; [|done]. by destruct k.
Qed.

Lemma stop_removes_session_witness :
  activeSessions (executeStopLogBroadcast (js "s1") Delivered s1_abc).2 = []
  ∧ (executeStopLogBroadcast (js "s1") Delivered s1_abc).1
    = Content (check_mark ++ js " Stopped log streaming for session s1"
               ++ lf ++ js "Device: default" ++ lf
               ++ js "Total logs captured: 3 lines").
Proof.
  pose proof (stop_removes_session (js "s1") Delivered s1_abc
    (mkLogSession (js "s1") (js "http://localhost:4723") android
                  None (Some 0%nat) 0%nat true) eq_refl)
    as (Hmap & _ & _ & _ & Htext).
  split; [exact Hmap|exact Htext].
Defined.

(** C4, as the spec has it, fails where [kill] throws: the session is
    removed, but the call raises an error instead of reporting the
    failure in a result text. *)
Lemma stop_raises_when_kill_throws :
  (∃ session,
      JsMap.get (js "s1") (activeSessions s1_streaming) = Some session)
  ∧ (executeStopLogBroadcast (js "s1") (KillThrows (js "kill EINVAL"))
       s1_streaming).1
    = Throw (js "Error stopping log streaming: kill EINVAL")
  ∧ ¬ (∃ text,
         (executeStopLogBroadcast (js "s1") (KillThrows (js "kill EINVAL"))
            s1_streaming).1 = Content text).
Proof.
  split; [eexists; vm_compute; reflexivity|].
  split; [vm_compute; reflexivity|].
  intros [text H]. vm_compute in H. discriminate.
Qed.

(** C7.  For a session id that is not registered, [get_logs],
    [clear_log_buffer] and [stop_log_broadcast] each answer with a
    "No active log session found" text, throw nothing, and leave the
    whole state as it was. *)
Theorem unknown_session_not_found
    (sid : str) (maxLines : option Num.number) (k : KillResult)
    (w : World) :
  JsMap.get sid (activeSessions w) = None →
  executeGetLogs sid maxLines w
  = (Content (js "No active log session found for " ++ sid
              ++ js ". Use 'start_log_broadcast' first."), w)
  ∧ executeClearLogBuffer sid w
    = (Content (js "No active log session found for " ++ sid), w)
  ∧ executeStopLogBroadcast sid k w
    = (Content (js "No active log session found for " ++ sid), w).
Proof.
  intros Hnone.
  unfold executeGetLogs, executeClearLogBuffer, executeStopLogBroadcast,
    no_session_text.
  rewrite Hnone. by rewrite <- app_assoc.
Qed.

Lemma unknown_session_not_found_witness :
  executeGetLogs (js "unknown") (Some (Num.of_Z 5)) s1_streaming
  = (Content (js "No active log session found for " ++ js "unknown"
              ++ js ". Use 'start_log_broadcast' first."), s1_streaming)
  ∧ executeClearLogBuffer (js "unknown") s1_streaming
    = (Content (js "No active log session found for " ++ js "unknown"),
       s1_streaming)
  ∧ executeStopLogBroadcast (js "unknown") Delivered s1_streaming
    = (Content (js "No active log session found for " ++ js "unknown"),
       s1_streaming).
Proof.
  apply (unknown_session_not_found (js "unknown") (Some (Num.of_Z 5))
           Delivered s1_streaming).
  vm_compute. reflexivity.
Defined.

Lemma slice_last_lines (n : Z) (buffer : list str) :
  0 < n → slice (- n) buffer = last_lines n buffer.
Proof.
  intros Hn. unfold slice, last_lines.
  destruct (Z.ltb_spec (- n) 0) as [_|Hge]; [|lia].
  f_equal. pose proof (len_nonneg buffer). lia.
Qed.

Lemma len_last_lines (n : Z) (buffer : list str) :
  0 < n → len (last_lines n buffer) = Z.min n (len buffer).
Proof.
  intros Hn. unfold last_lines, len. rewrite length_drop. lia.
Qed.

Section numbers.
Implicit Types (q : Q) (buffer : list str).

Lemma truncate_nonneg q : (0 <= q)%Q → Num.truncate q = Qfloor q.
Proof.
  destruct q as [n d]. unfold Qle, Num.truncate, Qfloor. simpl.
  intros Hn. apply Z.quot_div_nonneg; lia.
Qed.

Lemma truncate_opp q : Num.truncate (- q) = - Num.truncate q.
Proof.
  destruct q as [n d]. unfold Num.truncate. simpl.
  by apply Z.quot_opp_l.
Qed.

Lemma Qfloor_ge_1 q : (1 <= q)%Q → 1 ≤ Qfloor q.
Proof.
  intros Hq. change 1 with (Qfloor 1). by apply Qfloor_resp_le.
Qed.

(** [slice(-n)] for a number [n] of at least 1: the last [floor n]
    lines. *)
Lemma slice_neg_ge_1 q buffer :
  (1 <= q)%Q →
  Num.slice (Num.neg (Num.Finite q)) buffer = last_lines (Qfloor q) buffer.
Proof.
  intros Hq. unfold Num.slice. cbn [Num.neg Num.ToIntegerOrInfinity].
  rewrite truncate_opp, truncate_nonneg.
  - apply slice_last_lines. pose proof (Qfloor_ge_1 q Hq). lia.
  - apply Qle_trans with 1%Q; [done|exact Hq].
Qed.

Lemma below_spec q (total : Z) :
  Num.below (Num.Finite q) total
  = if Qlt_le_dec q (inject_Z total) then true else false.
Proof.
  cbn [Num.below].
  destruct (Qlt_le_dec q (inject_Z total)) as [Hlt|Hle].
  - apply negb_true_iff. destruct (Qle_bool (inject_Z total) q) eqn:E;
      [|done].
    apply Qle_bool_iff in E. exfalso. by apply (Qlt_not_le _ _ Hlt).
  - apply negb_false_iff. by apply Qle_bool_iff.
Qed.

Lemma not_falsy (n : Num.number) q :
  Num.value_of n = Num.Finite q → ¬ (q == 0)%Q → Num.falsy n = false.
Proof.
  intros Hv Hq. unfold Num.falsy. rewrite Hv.
  destruct (Qeq_bool q 0) eqn:E; [|done].
  by apply Qeq_bool_iff in E.
Qed.

Lemma slice_nil (v : Num.value) : Num.slice v ([] : list str) = [].
Proof.
  unfold Num.slice. destruct (Num.ToIntegerOrInfinity v); [|done..].
  unfold slice. apply drop_nil.
Qed.

Lemma below_Z (z total : Z) :
  Num.below (Num.Finite (inject_Z z)) total = (z <? total).
Proof.
  cbn [Num.below]. unfold Qle_bool. simpl. rewrite !Z.mul_1_r.
  by rewrite Z.ltb_antisym.
Qed.

(** The report, written out. *)
Lemma logs_text_eq (sid : str) (session : LogSession)
    (maxLines : Num.number) (total : Z) (logs : list str) :
  logs_text sid session maxLines total logs
  = js "=== "
    ++ match platform session with
       | android => js "ANDROID"
       | ios => js "IOS"
       end
    ++ js " Logs for Session " ++ sid ++ js " ===" ++ lf
    ++ js "Status: "
    ++ (if isStreaming session then js "Streaming" else js "Stopped") ++ lf
    ++ js "Device: " ++ or_else (deviceId session) (js "default") ++ lf
    ++ js "Total logs captured: " ++ of_number total ++ lf
    ++ js "Showing last " ++ of_number (len logs) ++ js " lines:" ++ lf
    ++ lf
    ++ join lf logs ++ lf
    ++ lf
    ++ (if Num.below (Num.value_of maxLines) total
        then lf ++ js "(Showing " ++ Num.text_of maxLines ++ js " of "
             ++ of_number total
             ++ js " total lines. Increase maxLines to see more.)"
        else []).
Proof. unfold logs_text, truncation_note. by destruct (platform session). Qed.
End numbers.

(** C5, as the code has it.  For a registered session and a [maxLines]
    of at least 1, whole or not, the report of [get_logs] carries the
    last [min (floor maxLines) total] lines of the buffer in their
    order, the total, and the number of lines shown; the closing note
    about lines left out is there exactly when the total exceeds
    [maxLines].  Nothing changes. *)
Theorem get_logs_tail
    (sid : str) (maxLines : Num.number) (q : Q) (w : World)
    (session : LogSession) :
  JsMap.get sid (activeSessions w) = Some session →
  Num.value_of maxLines = Num.Finite q →
  (1 <= q)%Q →
  executeGetLogs sid (Some maxLines) w
  = (Content
       (js "=== "
        ++ match platform session with
           | android => js "ANDROID"
           | ios => js "IOS"
           end
        ++ js " Logs for Session " ++ sid ++ js " ===" ++ lf
        ++ js "Status: "
        ++ (if isStreaming session then js "Streaming" else js "Stopped")
        ++ lf
        ++ js "Device: " ++ or_else (deviceId session) (js "default") ++ lf
        ++ js "Total logs captured: "
        ++ of_number (len (read (logBuffer session) w)) ++ lf
        ++ js "Showing last "
        ++ of_number (Z.min (Qfloor q) (len (read (logBuffer session) w)))
        ++ js " lines:" ++ lf
        ++ lf
        ++ join lf (last_lines (Qfloor q) (read (logBuffer session) w))
        ++ lf
        ++ lf
        ++ (if Qlt_le_dec q (inject_Z (len (read (logBuffer session) w)))
            then lf ++ js "(Showing " ++ Num.text_of maxLines ++ js " of "
                 ++ of_number (len (read (logBuffer session) w))
                 ++ js " total lines. Increase maxLines to see more.)"
            else [])),
     w)
  ∧ len (last_lines (Qfloor q) (read (logBuffer session) w))
    = Z.min (Qfloor q) (len (read (logBuffer session) w)).
Proof.
  intros Hget Hv Hq. pose proof (Qfloor_ge_1 q Hq) as Hfloor.
  assert (Hlen : len (last_lines (Qfloor q) (read (logBuffer session) w))
                 = Z.min (Qfloor q) (len (read (logBuffer session) w)))
    by (apply len_last_lines; lia).
  split; [|done].
  unfold executeGetLogs, max_lines_or_default.
  rewrite (not_falsy maxLines q Hv), Hget, Hv.
  - rewrite (slice_neg_ge_1 _ _ Hq), logs_text_eq, Hlen, Hv, below_spec.
    by destruct (Qlt_le_dec q (inject_Z (len (read (logBuffer session) w)))).
  - intros H0. rewrite H0 in Hq. by apply Hq.
Qed.

(** The theorem on the buffer a, b, c with [maxLines] 2: lines b and c,
    total 3, showing 2, with the note; with 2.5 the same two lines, and
    with 3 all three and no note. *)
Lemma get_logs_tail_witness :
  read 0 s1_abc = [js "a"; js "b"; js "c"]
  ∧ executeGetLogs (js "s1") (Some (Num.of_Z 2)) s1_abc
    = (Content
         (js "=== ANDROID Logs for Session s1 ===" ++ lf
          ++ js "Status: Streaming" ++ lf
          ++ js "Device: default" ++ lf
          ++ js "Total logs captured: 3" ++ lf
          ++ js "Showing last 2 lines:" ++ lf ++ lf
          ++ js "b" ++ lf ++ js "c" ++ lf ++ lf ++ lf
          ++ js "(Showing 2 of 3 total lines. Increase maxLines to see more.)"),
       s1_abc)
  ∧ executeGetLogs (js "s1") (Some two_and_a_half) s1_abc
    = (Content
         (js "=== ANDROID Logs for Session s1 ===" ++ lf
          ++ js "Status: Streaming" ++ lf
          ++ js "Device: default" ++ lf
          ++ js "Total logs captured: 3" ++ lf
          ++ js "Showing last 2 lines:" ++ lf ++ lf
          ++ js "b" ++ lf ++ js "c" ++ lf ++ lf ++ lf
          ++ js "(Showing 2.5 of 3 total lines. Increase maxLines to see more.)"),
       s1_abc)
  ∧ executeGetLogs (js "s1") (Some (Num.of_Z 3)) s1_abc
    = (Content
         (js "=== ANDROID Logs for Session s1 ===" ++ lf
          ++ js "Status: Streaming" ++ lf
          ++ js "Device: default" ++ lf
          ++ js "Total logs captured: 3" ++ lf
          ++ js "Showing last 3 lines:" ++ lf ++ lf
          ++ js "a" ++ lf ++ js "b" ++ lf ++ js "c" ++ lf ++ lf),
       s1_abc).
Proof.
  split; [reflexivity|]. split; [|split].
  - refine (proj1 (get_logs_tail (js "s1") (Num.of_Z 2) 2 s1_abc s1_session
                     eq_refl eq_refl _)).
    discriminate.
  - refine (proj1 (get_logs_tail (js "s1") two_and_a_half (5 # 2) s1_abc
                     s1_session eq_refl eq_refl _)).
    discriminate.
  - refine (proj1 (get_logs_tail (js "s1") (Num.of_Z 3) 3 s1_abc s1_session
                     eq_refl eq_refl _)).
    discriminate.
Defined.

(** C5, as the spec has it, fails at a positive [maxLines] below 1: with
    0.5 on the buffer a, b, c, [slice(-0.5)] is [slice(0)], and the
    report shows all three lines, more than [maxLines], with the
    note. *)
Lemma get_logs_half_shows_all :
  (0 < 1 # 2)%Q
  ∧ executeGetLogs (js "s1") (Some half) s1_abc
    = (Content
         (js "=== ANDROID Logs for Session s1 ===" ++ lf
          ++ js "Status: Streaming" ++ lf
          ++ js "Device: default" ++ lf
          ++ js "Total logs captured: 3" ++ lf
          ++ js "Showing last 3 lines:" ++ lf ++ lf
          ++ js "a" ++ lf ++ js "b" ++ lf ++ js "c" ++ lf ++ lf ++ lf
          ++ js "(Showing 0.5 of 3 total lines. Increase maxLines to see more.)"),
       s1_abc)
  ∧ Num.slice (Num.neg (Num.value_of half)) (read 0 s1_abc)
    = [js "a"; js "b"; js "c"]
  ∧ ¬ (inject_Z (len [js "a"; js "b"; js "c"]) <= 1 # 2)%Q.
Proof.
  split; [reflexivity|]. split; [reflexivity|]. split; [reflexivity|].
  intros H. vm_compute in H. by apply H.
Qed.

(** C9.  [maxLines] 0 is falsy: [get_logs] with 0 answers what it
    answers with [maxLines] left out, and that is a report of the last
    100 lines at most, not of none. *)
Theorem get_logs_zero_is_default
    (sid : str) (zero_text : str) (w : World) :
  executeGetLogs sid (Some (Num.mkNumber (Num.Finite 0) zero_text)) w
  = executeGetLogs sid None w
  ∧ ∀ session,
      JsMap.get sid (activeSessions w) = Some session →
      executeGetLogs sid (Some (Num.mkNumber (Num.Finite 0) zero_text)) w
      = (Content
           (js "=== "
            ++ match platform session with
               | android => js "ANDROID"
               | ios => js "IOS"
               end
            ++ js " Logs for Session " ++ sid ++ js " ===" ++ lf
            ++ js "Status: "
            ++ (if isStreaming session then js "Streaming"
                else js "Stopped")
            ++ lf
            ++ js "Device: " ++ or_else (deviceId session) (js "default")
            ++ lf
            ++ js "Total logs captured: "
            ++ of_number (len (read (logBuffer session) w)) ++ lf
            ++ js "Showing last "
            ++ of_number (Z.min 100 (len (read (logBuffer session) w)))
            ++ js " lines:" ++ lf
            ++ lf
            ++ join lf (last_lines 100 (read (logBuffer session) w))
            ++ lf
            ++ lf
            ++ (if 100 <? len (read (logBuffer session) w)
                then lf ++ js "(Showing 100 of "
                     ++ of_number (len (read (logBuffer session) w))
                     ++ js " total lines. Increase maxLines to see more.)"
                else [])),
         w)
      ∧ len (last_lines 100 (read (logBuffer session) w))
        = Z.min 100 (len (read (logBuffer session) w)).
Proof.
  split; [done|]. intros session Hget.
  assert (Hlen : len (last_lines 100 (read (logBuffer session) w))
                 = Z.min 100 (len (read (logBuffer session) w)))
    by by apply len_last_lines.
  split; [|done].
  unfold executeGetLogs. cbn [max_lines_or_default]. rewrite Hget.
  change (Num.falsy (Num.mkNumber (Num.Finite 0) zero_text)) with true.
  cbn iota. change (Num.value_of (Num.of_Z 100))
    with (Num.Finite (inject_Z 100)).
  rewrite (slice_neg_ge_1 (inject_Z 100)) by discriminate.
  change (Qfloor (inject_Z 100)) with 100.
  rewrite logs_text_eq, Hlen.
  change (Num.value_of (Num.of_Z 100)) with (Num.Finite (inject_Z 100)).
  by rewrite below_Z.
Qed.

(** On the buffer a, b, c the three lines are shown; on a buffer of 150
    lines, 100 are. *)
Lemma get_logs_zero_is_default_witness :
  executeGetLogs (js "s1") (Some (Num.mkNumber (Num.Finite 0) (js "0")))
    s1_abc
  = (Content
       (js "=== ANDROID Logs for Session s1 ===" ++ lf
        ++ js "Status: Streaming" ++ lf
        ++ js "Device: default" ++ lf
        ++ js "Total logs captured: 3" ++ lf
        ++ js "Showing last 3 lines:" ++ lf ++ lf
        ++ js "a" ++ lf ++ js "b" ++ lf ++ js "c" ++ lf ++ lf),
     s1_abc)
  ∧ len (last_lines 100 (read 0 s1_150)) = 100
  ∧ last_lines 100 (read 0 s1_150) = drop 50 (numbered_lines 150).
Proof.
  split.
  - exact (proj1 (proj2 (get_logs_zero_is_default (js "s1") (js "0") s1_abc)
                    s1_session eq_refl)).
  - split.
    + exact (proj2 (proj2 (get_logs_zero_is_default (js "s1") (js "0")
                             s1_150) s1_session eq_refl)).
    + vm_compute. reflexivity.
Defined.

Lemma read_write_eq (r : nat) (w : World) : read r (write r [] w) = [].
Proof.
  unfold read, write. simpl.
  destruct (decide (r < length (arrays w))%nat) as [Hlt|Hge].
  - by rewrite list_lookup_insert_eq.
  - by rewrite list_insert_ge, (proj2 (lookup_ge_None _ _)) by lia.
Qed.

Lemma read_write_ne (r r' : nat) (a : list str) (w : World) :
  r' ≠ r → read r' (write r a w) = read r' w.
Proof.
  intros Hne. unfold read, write. simpl.
  by rewrite list_lookup_insert_ne.
Qed.

(** C8.  Clearing a registered session answers with the number of lines
    its buffer held and leaves that buffer empty, so that a following
    [get_logs] reports a total of 0.  The session map is as before (the
    session is still there, with its streaming flag, process, platform
    and device), the processes are as before, and so is every other
    array. *)
Theorem clear_empties_buffer_only
    (sid : str) (maxLines : option Num.number) (w : World)
    (session : LogSession) :
  JsMap.get sid (activeSessions w) = Some session →
  (executeClearLogBuffer sid w).1
  = Content (js "Cleared "
             ++ of_number (len (read (logBuffer session) w))
             ++ js " log lines from buffer for session " ++ sid
             ++ js ". Log streaming continues.")
  ∧ read (logBuffer session) (executeClearLogBuffer sid w).2 = []
  ∧ activeSessions (executeClearLogBuffer sid w).2 = activeSessions w
  ∧ JsMap.get sid (activeSessions (executeClearLogBuffer sid w).2)
    = Some session
  ∧ processes (executeClearLogBuffer sid w).2 = processes w
  ∧ (∀ r, r ≠ logBuffer session →
          read r (executeClearLogBuffer sid w).2 = read r w)
  ∧ executeGetLogs sid maxLines (executeClearLogBuffer sid w).2
    = (Content (logs_text sid session (max_lines_or_default maxLines) 0 []),
       (executeClearLogBuffer sid w).2).
Proof.
  intros Hget. unfold executeClearLogBuffer. rewrite Hget. simpl.
  split; [done|]. split; [apply read_write_eq|]. split; [done|].
  split; [done|]. split; [done|].
  split; [intros r Hne; by apply read_write_ne|].
  unfold executeGetLogs. simpl. rewrite Hget, read_write_eq.
  by rewrite slice_nil.
Qed.

(** Clearing the buffer a, b, c of s1: 3 lines cleared, and a following
    [get_logs] shows a total of 0. *)
Lemma clear_empties_buffer_only_witness :
  (executeClearLogBuffer (js "s1") s1_abc).1
  = Content (js "Cleared 3 log lines from buffer for session s1. Log streaming continues.")
  ∧ (executeGetLogs (js "s1") None (executeClearLogBuffer (js "s1") s1_abc).2).1
    = Content
        (js "=== ANDROID Logs for Session s1 ===" ++ lf
         ++ js "Status: Streaming" ++ lf
         ++ js "Device: default" ++ lf
         ++ js "Total logs captured: 0" ++ lf
         ++ js "Showing last 0 lines:" ++ lf ++ lf ++ lf ++ lf).
Proof.
  pose proof (clear_empties_buffer_only (js "s1") None s1_abc
    (mkLogSession (js "s1") (js "http://localhost:4723") android
                  None (Some 0%nat) 0%nat true) eq_refl)
    as (Htext & _ & _ & _ & _ & _ & Hget).
  split; [exact Htext|]. rewrite Hget. reflexivity.
Defined.

(** ** What an iOS start spawns *)

Section spawned.
Implicit Types (w : World) (ev : ProcEvent).

Lemma spawn_records_deliver w ev :
  spawn_records (deliver w ev) = spawn_records w.
Proof.
  unfold spawn_records.
  destruct ev as [pid data|pid code|pid|pid]; simpl.
  - by destruct (processes w !! pid ≫= stdout_data).
  - destruct (processes w !! pid) as [q|] eqn:E; [|done].
    rewrite processes_fire. simpl.
    apply list_eq. intros i. rewrite !list_lookup_fmap.
    destruct (decide (pid = i)) as [<-|Hne].
    + rewrite list_lookup_alter_eq, E. done.
    + by rewrite list_lookup_alter_ne.
  - destruct (processes w !! pid); [|done]. by rewrite processes_fire.
  - destruct (processes w !! pid); [|done]. by rewrite processes_fire.
Qed.

Lemma spawn_records_deliver_all evs w :
  spawn_records (deliver_all evs w) = spawn_records w.
Proof.
  unfold deliver_all. revert w.
  induction evs as [|ev evs IH]; intros w; simpl; [done|].
  by rewrite IH, spawn_records_deliver.
Qed.

Lemma spawned_records pid w :
  spawned (pid, w) = spawn_records w !! pid.
Proof.
  unfold spawned, spawn_records. simpl. rewrite list_lookup_fmap.
  by destruct (processes w !! pid).
Qed.

Lemma ios_launch_spawned sid deviceId buffer settle w :
  spawned (Ios.launch sid deviceId buffer settle w)
  = Some (Ios.file (Ios.plan deviceId), Ios.args (Ios.plan deviceId)).
Proof.
  unfold Ios.launch. simpl. rewrite spawned_records.
  rewrite spawn_records_deliver_all.
  unfold spawn_records, listen_close, listen_error, listen_stdout,
    with_process. simpl.
  rewrite !alter_app_r_alt, Nat.sub_diag by done. simpl.
  rewrite fmap_app. simpl.
  by rewrite lookup_app_r, length_fmap, Nat.sub_diag by (rewrite length_fmap; lia).
Qed.
End spawned.

Lemma isSimulator_spec (d : str) :
  d ≠ [] → Ios.isSimulator (Some d) = true ↔ hyphen_or_long d.
Proof.
  intros Hd. unfold Ios.isSimulator, hyphen_or_long. simpl.
  destruct d as [|c d]; [done|]. cbn [truthy].
  rewrite orb_true_iff.
  destruct (Z.gtb_spec (len (c :: d)) 25); split; intros [?|?];
    auto; lia.
Qed.

(** C6, as the code has it.  For every supplied device id that is not
    the empty string: with a hyphen or more than 25 code units the
    simulator command [xcrun simctl spawn <id> log stream --level debug]
    is spawned, otherwise the device command [idevicesyslog -u <id>]. *)
Theorem ios_choice_nonempty (d : str) :
  d ≠ [] → ios_choice_as_specified d.
Proof.
  intros Hd. pose proof (isSimulator_spec d Hd) as Hsim.
  assert (Hnarrow : narrow (Some d) = Some d) by by destruct d.
  split.
  - intros env w. unfold detect_device, falsy. by rewrite Hnarrow.
  - intros sid buffer settle w. rewrite ios_launch_spawned.
    unfold Ios.plan. split.
    + intros Hh. rewrite (proj2 Hsim Hh), Hnarrow. done.
    + intros Hh. destruct (Ios.isSimulator (Some d)) eqn:E.
      * exfalso. by apply Hh, Hsim.
      * by rewrite Hnarrow.
Qed.

(** The two ids of the spec: the first has a hyphen, the second has 12
    code units and none. *)
Lemma ios_choice_nonempty_witness :
  spawned (Ios.launch (js "s2") (Some (js "00008030-001C2D")) 0 [] initial)
  = Some (js "xcrun",
          [js "simctl"; js "spawn"; js "00008030-001C2D"; js "log";
           js "stream"; js "--level"; js "debug"])
  ∧ spawned (Ios.launch (js "s2") (Some (js "a1b2c3d4e5f6")) 0 [] initial)
    = Some (js "idevicesyslog", [js "-u"; js "a1b2c3d4e5f6"]).
Proof.
  split.
  - refine (proj1 (proj1 (proj2 (ios_choice_nonempty
      (js "00008030-001C2D") _) (js "s2") 0%nat [] initial) _)).
    + discriminate.
    + left. reflexivity.
  - refine (proj1 (proj2 (proj2 (ios_choice_nonempty
      (js "a1b2c3d4e5f6") _) (js "s2") 0%nat [] initial) _)).
    + discriminate.
    + intros [H|H]; [discriminate H|]. vm_compute in H. discriminate H.
Defined.

(** C6, as the spec has it, fails at the empty device id: it has no
    hyphen and no length, and what is spawned is [idevicesyslog] with
    no argument, not [idevicesyslog -u ''].  At the level of the tool,
    the empty id is even replaced by the one the session lookup
    finds. *)
Lemma ios_choice_empty_id :
  ¬ hyphen_or_long []
  ∧ spawned (Ios.launch (js "s2") (Some []) 0 [] initial)
    = Some (js "idevicesyslog", [])
  ∧ detect_device (Some [])
      (mkStartEnv (AxiosData (Some (js "00008030-001C2D"))) [] []) initial
    = (Some (js "00008030-001C2D"), initial)
  ∧ ¬ ios_choice_as_specified [].
Proof.
  assert (Hn : ¬ hyphen_or_long []).
  { intros [H|H]; [discriminate H|]. vm_compute in H. discriminate H. }
  split; [done|]. split; [reflexivity|]. split; [reflexivity|].
  intros [_ Hspec].
  destruct (Hspec (js "s2") 0%nat [] initial) as [_ Hdev].
  destruct (Hdev Hn) as [Hsp _]. vm_compute in Hsp. discriminate Hsp.
Qed.

(** C10.  [startIosLogs] called with no device id ([deviceId] undefined,
    which is what the tool passes when none was given and the session
    lookup threw or found none) is not a simulator start: it spawns
    [idevicesyslog] with no argument.  And whatever the device id, what
    is spawned is never
    [xcrun simctl spawn booted log stream --level debug]: the arm that
    would spawn it is under a test that an absent id fails. *)
Theorem ios_booted_unreachable :
  Ios.isSimulator None = false
  ∧ (∀ during_lookup during_settle w,
        (detect_device None
           (mkStartEnv AxiosThrows during_lookup during_settle) w).1 = None
        ∧ (detect_device None
             (mkStartEnv (AxiosData None) during_lookup during_settle) w).1
          = None)
  ∧ Ios.command (Ios.plan None) = js "idevicesyslog"
  ∧ (∀ sid buffer settle w,
        spawned (Ios.launch sid None buffer settle w)
        = Some (js "idevicesyslog", []))
  ∧ (∀ deviceId sid buffer settle w,
        spawned (Ios.launch sid deviceId buffer settle w)
        ≠ Some (js "xcrun",
                [js "simctl"; js "spawn"; js "booted"; js "log";
                 js "stream"; js "--level"; js "debug"]))
  ∧ (∀ deviceId,
        Ios.command (Ios.plan deviceId)
        ≠ js "xcrun simctl spawn booted log stream --level debug").
Proof.
  split; [done|]. split; [done|]. split; [done|].
  split; [intros; by rewrite ios_launch_spawned|].
  assert (Hsim : ∀ deviceId, Ios.isSimulator deviceId = true →
            ∃ d, narrow deviceId = Some d ∧ d ≠ js "booted").
  { intros deviceId. unfold Ios.isSimulator.
    destruct (narrow deviceId) as [d|]; [|done].
    intros H. exists d. split; [done|]. intros ->. vm_compute in H.
    discriminate H. }
  split.
  - intros deviceId sid buffer settle w. rewrite ios_launch_spawned.
    unfold Ios.plan. destruct (Ios.isSimulator deviceId) eqn:E.
    + destruct (Hsim _ E) as (d & -> & Hd). simpl.
      intros [= H]. by apply Hd.
    + simpl. intros H. vm_compute in H. discriminate H.
  - intros deviceId. unfold Ios.plan.
    destruct (Ios.isSimulator deviceId) eqn:E.
    + destruct (Hsim _ E) as (d & -> & Hd). cbn [Ios.command].
      change (js "xcrun simctl spawn booted log stream --level debug")
        with (js "xcrun simctl spawn " ++ js "booted"
              ++ js " log stream --level debug").
      intros H. apply app_inv_head, app_inv_tail in H. by apply Hd.
    + cbn [Ios.command]. destruct (narrow deviceId) as [d|]; intros H.
      * apply (f_equal (take 1)) in H. vm_compute in H. discriminate H.
      * vm_compute in H. discriminate H.
Qed.

(** * Further properties *)

(** ** The stdout handler on arbitrary chunks *)

Section chunks.
Implicit Types (buf lines : list str) (data line : str).

Lemma last_lines_drop lines :
  last_lines 10000 lines = drop (Z.to_nat (len lines - 10000)) lines.
Proof. unfold last_lines. f_equal. pose proof (len_nonneg lines). lia. Qed.

Lemma push_lines_drop lines (more : list str) :
  foldl push_line (drop (Z.to_nat (len lines - 10000)) lines) more
  = drop (Z.to_nat (len (lines ++ more) - 10000)) (lines ++ more).
Proof.
  induction more as [|line more IH] using rev_ind.
  - by rewrite app_nil_r.
  - rewrite foldl_snoc, IH, push_line_drop. by rewrite <- app_assoc.
Qed.

Lemma keep_lines_filter buf (frags : list str) :
  foldl keep_line buf frags
  = foldl push_line buf (filter (λ line, truthy (trim line) = true) frags).
Proof.
  revert buf. induction frags as [|f frags IH]; intros buf; [done|].
  cbn [foldl]. rewrite IH. unfold keep_line.
  destruct (truthy (trim f)) eqn:E.
  - by rewrite filter_cons_True.
  - by rewrite filter_cons_False by (rewrite E; discriminate).
Qed.

Lemma chunks_received lines (chunks : list str) :
  foldl on_stdout_data (drop (Z.to_nat (len lines - 10000)) lines) chunks
  = drop (Z.to_nat (len (received lines chunks) - 10000))
         (received lines chunks).
Proof.
  unfold received.
  induction chunks as [|data chunks IH] using rev_ind.
  - simpl. by rewrite app_nil_r.
  - rewrite foldl_snoc, IH. unfold on_stdout_data.
    rewrite keep_lines_filter, push_lines_drop.
    rewrite fmap_app, concat_app. simpl.
    by rewrite app_nil_r, <- app_assoc.
Qed.

(** X1.  Whatever the chunks are, a buffer within its capacity ends as
    the last 10000 of all the lines pushed: its old lines, then the
    non-blank fragments of the chunks in the order they came. *)
Theorem buffer_keeps_last_received buf (chunks : list str) :
  len buf ≤ 10000 →
  foldl on_stdout_data buf chunks = last_lines 10000 (received buf chunks).
Proof.
  intros Hb. rewrite last_lines_drop, <- chunks_received.
  replace (Z.to_nat (len buf - 10000)) with 0%nat by lia. done.
Qed.

Lemma buffer_keeps_last_received_witness :
  foldl on_stdout_data [js "old"]
    [js "a" ++ lf ++ js "  " ++ lf ++ js "b"; lf; js "c" ++ lf]
  = [js "old"; js "a"; js "b"; js "c"].
Proof.
  refine (eq_trans (buffer_keeps_last_received [js "old"]
    [js "a" ++ lf ++ js "  " ++ lf ++ js "b"; lf; js "c" ++ lf] _) _).
  - vm_compute. discriminate.
  - reflexivity.
Defined.
End chunks.

Section fragments.
Implicit Types (buf : list str) (a b data line : str).

Lemma split_nonempty (sep : N) data : split sep data ≠ [].
Proof.
  destruct data as [|c data]; [done|]. cbn [split].
  destruct (N.eqb c sep); [done|]. by destruct (split sep data).
Qed.

(** A separator between two strings separates their fragments. *)
Lemma split_app (sep : N) a b :
  split sep (a ++ sep :: b) = split sep a ++ split sep b.
Proof.
  induction a as [|c a IH].
  - cbn [app split]. by rewrite N.eqb_refl.
  - change ((c :: a) ++ sep :: b) with (c :: (a ++ sep :: b)).
    cbn [split]. rewrite IH.
    destruct (N.eqb c sep); [done|].
    pose proof (split_nonempty sep a).
    by destruct (split sep a).
Qed.

Lemma split_no_sep (sep : N) data :
  Forall (λ f, includes sep f = false) (split sep data).
Proof.
  induction data as [|c data IH]; [by repeat constructor|].
  cbn [split]. destruct (N.eqb c sep) eqn:E; [by constructor|].
  pose proof (split_nonempty sep data).
  destruct (split sep data) as [|h t]; [done|].
  apply Forall_cons in IH as [Hh Ht]. constructor; [|done].
  change (includes sep (c :: h)) with (N.eqb sep c || includes sep h).
  by rewrite N.eqb_sym, E, Hh.
Qed.

(** X2.  A chunk boundary at a line feed is not seen: one chunk with a
    line feed between two parts leaves the buffer that the two parts
    leave as chunks of their own. *)
Theorem chunk_boundary_at_line_feed buf a b :
  on_stdout_data buf (a ++ lf ++ b)
  = on_stdout_data (on_stdout_data buf a) b.
Proof.
  unfold on_stdout_data, lf. cbn [app].
  by rewrite split_app, foldl_app.
Qed.

Lemma push_line_clean buf line :
  Forall (λ l, single_line l = true) buf → single_line line = true →
  Forall (λ l, single_line l = true) (push_line buf line).
Proof.
  intros Hb Hl. unfold push_line.
  assert (Hp : Forall (λ l, single_line l = true) (buf ++ [line])).
  { apply Forall_app. split; [done|by repeat constructor]. }
  destruct (len (buf ++ [line]) >? 10000); [|done].
  destruct (buf ++ [line]) as [|x rest]; [done|].
  by apply Forall_cons in Hp as [_ Hp].
Qed.

Lemma on_stdout_data_clean buf data :
  Forall (λ l, single_line l = true) buf →
  Forall (λ l, single_line l = true) (on_stdout_data buf data).
Proof.
  unfold on_stdout_data. pose proof (split_no_sep 10 data) as Hs.
  revert buf. induction Hs as [|f frags Hf Hfrags IH]; intros buf Hb;
    [done|].
  cbn [foldl]. apply IH. unfold keep_line.
  destruct (truthy (trim f)) eqn:E; [|done].
  apply push_line_clean; [done|]. unfold single_line. by rewrite Hf, E.
Qed.
End fragments.

(** ** Invariants of the arrays along every history *)

Section arrays_invariant.
Variable P : list str → Prop.
Hypothesis P_empty : P [].
Hypothesis P_data : ∀ buf data, P buf → P (on_stdout_data buf data).

Lemma deliver_arrays w ev :
  Forall P (arrays w) → Forall P (arrays (deliver w ev)).
Proof.
  intros Hb. destruct ev as [pid data|pid code|pid|pid]; simpl.
  - destruct (processes w !! pid ≫= stdout_data) as [r|]; [|done].
    apply Forall_insert; [done|]. apply P_data. unfold read.
    destruct (arrays w !! r) as [a|] eqn:E; [|done].
    exact (proj1 (Forall_lookup _ _) Hb _ _ E).
  - destruct (processes w !! pid); [|done]. by rewrite arrays_fire.
  - destruct (processes w !! pid); [|done]. by rewrite arrays_fire.
  - destruct (processes w !! pid); [|done]. by rewrite arrays_fire.
Qed.

Lemma deliver_all_arrays evs w :
  Forall P (arrays w) → Forall P (arrays (deliver_all evs w)).
Proof.
  unfold deliver_all. revert w.
  induction evs as [|ev evs IH]; intros w Hb; simpl; [done|].
  by apply IH, deliver_arrays.
Qed.

Lemma start_arrays args env w :
  Forall P (arrays w) →
  Forall P (arrays (executeStartLogBroadcast args env w).2).
Proof.
  intros Hb. unfold executeStartLogBroadcast.
  destruct (already_streaming _ w); [done|].
  assert (H1 : Forall P (arrays (detect_device (arg_deviceId args) env w).2)).
  { rewrite detect_device_world. by apply deliver_all_arrays. }
  destruct (detect_device _ env w) as [d w1]. simpl in H1.
  assert (H2 : Forall P (arrays (new_array w1).2)).
  { simpl. apply Forall_app. split; [done|by repeat constructor]. }
  destruct (arg_platform args); simpl.
  - unfold startAndroidLogs.
    assert (H3 : Forall P (arrays
              (Android.launch (arg_sessionId args) d (length (arrays w1))
                 (during_settle env) (new_array w1).2).2))
      by by apply deliver_all_arrays.
    destruct (Android.launch _ _ _ _ _) as [p w3]. simpl in H3.
    by destruct (exit_code p w3).
  - unfold startIosLogs.
    assert (H3 : Forall P (arrays
              (Ios.launch (arg_sessionId args) d (length (arrays w1))
                 (during_settle env) (new_array w1).2).2))
      by by apply deliver_all_arrays.
    destruct (Ios.launch _ _ _ _ _) as [p w3]. simpl in H3.
    by destruct (exit_code p w3).
Qed.

Lemma stop_arrays sid k w : arrays (executeStopLogBroadcast sid k w).2 = arrays w.
Proof.
  unfold executeStopLogBroadcast.
  destruct (JsMap.get sid _) as [session|]; [|done].
  destruct (logProcess session) as [pid|]; [|done]. by destruct k.
Qed.

Lemma step_arrays w a : Forall P (arrays w) → Forall P (arrays (step w a)).
Proof.
  intros Hb. destruct a; simpl.
  - by apply start_arrays.
  - by rewrite stop_arrays.
  - by rewrite get_unchanged.
  - unfold executeClearLogBuffer.
    destruct (JsMap.get sid _) as [session|]; [|done].
    by apply Forall_insert.
  - by apply deliver_arrays.
Qed.

Lemma run_arrays history : Forall P (arrays (run history)).
Proof.
  unfold run. assert (H0 : Forall P (arrays initial)) by constructor.
  revert H0. generalize initial as w.
  induction history as [|a history IH]; intros w Hb; simpl; [done|].
  by apply IH, step_arrays.
Qed.
End arrays_invariant.

Lemma run_clean (history : list Action) :
  Forall (Forall (λ l, single_line l = true)) (arrays (run history)).
Proof.
  exact (run_arrays (Forall (λ l, single_line l = true))
           (Forall_nil_2 _) (λ buf data, on_stdout_data_clean buf data)
           history).
Qed.

(** X3.  Along every history of tool calls and process events, no
    buffered line is blank and none has a line feed inside. *)
Theorem buffered_lines_single (history : list Action) :
  Forall (Forall (λ line, includes 10 line = false
                          ∧ truthy (trim line) = true))
         (arrays (run history)).
Proof.
  eapply Forall_impl; [exact (run_clean history)|]. intros a Ha.
  eapply Forall_impl; [exact Ha|]. intros line Hl. simpl in Hl.
  unfold single_line in Hl. apply andb_true_iff in Hl as [H1 H2].
  by apply negb_true_iff in H1.
Qed.

(** ** Lines and chunk boundaries *)

Section blank.
Implicit Types (s x y : str) (buf : list str).

Lemma trim_start_nil s : trim_start s = [] ↔ forallb is_space s = true.
Proof.
  induction s as [|c s IH]; [done|]. cbn [trim_start forallb].
  destruct (is_space c); [by rewrite IH|]. by split.
Qed.

Lemma forallb_trim_start s :
  forallb is_space (trim_start s) = forallb is_space s.
Proof.
  induction s as [|c s IH]; [done|]. cbn [trim_start forallb].
  destruct (is_space c) eqn:E; [done|]. cbn [forallb]. by rewrite E.
Qed.

Lemma forallb_reverse (f : N → bool) s :
  forallb f (reverse s) = forallb f s.
Proof.
  induction s as [|c s IH]; [done|].
  rewrite reverse_cons, forallb_app, IH. cbn [forallb].
  by rewrite andb_true_r, andb_comm.
Qed.

(** A string is blank for the handler exactly when all its code units
    are white space. *)
Lemma blank_all_space s :
  truthy (trim s) = negb (forallb is_space s).
Proof.
  unfold trim.
  destruct (forallb is_space s) eqn:E.
  - apply trim_start_nil in E. by rewrite E.
  - rewrite <- forallb_trim_start, <- forallb_reverse,
      <- forallb_trim_start in E.
    destruct (trim_start (reverse (trim_start s))) as [|c r]; [done|].
    rewrite reverse_cons. by destruct (reverse r).
Qed.

Lemma single_line_app x y :
  single_line x = true → single_line y = true →
  single_line (x ++ y) = true.
Proof.
  unfold single_line. rewrite !blank_all_space, !andb_true_iff,
    !negb_true_iff. intros [Hx1 Hx2] [Hy1 Hy2]. split.
  - unfold includes in *. by rewrite existsb_app, Hx1, Hy1.
  - by rewrite forallb_app, Hx2.
Qed.

(** X4.  Nothing joins the pieces of a line that a chunk boundary cut:
    two pieces sent as two chunks become two buffered lines, where the
    same text in one chunk is one line. *)
Theorem cut_line_is_two_lines buf x y :
  single_line x = true → single_line y = true →
  len buf + 2 ≤ 10000 →
  foldl on_stdout_data buf [x; y] = buf ++ [x; y]
  ∧ on_stdout_data buf (x ++ y) = buf ++ [x ++ y].
Proof.
  intros Hx Hy Hb.
  assert (Hpush : ∀ b l, len b + 1 ≤ 10000 → push_line b l = b ++ [l]).
  { intros b l H. unfold push_line. rewrite len_app.
    change (len [l]) with 1.
    by destruct (Z.gtb_spec (len b + 1) 10000); [lia|]. }
  split.
  - cbn [foldl]. rewrite !single_line_pushed by done.
    rewrite (Hpush buf x) by lia.
    rewrite Hpush by (rewrite len_app; change (len [x]) with 1; lia).
    by rewrite <- app_assoc.
  - rewrite single_line_pushed by by apply single_line_app.
    apply Hpush. lia.
Qed.

Lemma cut_line_is_two_lines_witness :
  foldl on_stdout_data [] [js "E/App: cra"; js "shed"]
  = [js "E/App: cra"; js "shed"]
  ∧ on_stdout_data [] (js "E/App: cra" ++ js "shed")
    = [js "E/App: crashed"].
Proof.
  apply (cut_line_is_two_lines [] (js "E/App: cra") (js "shed"));
    vm_compute; first [reflexivity | discriminate].
Defined.


End blank.

(** ** What process events do to the state *)

Section event_effects.
Implicit Types (w : World) (sid : str) (ev : ProcEvent).

Lemma length_processes_deliver w ev :
  length (processes (deliver w ev)) = length (processes w).
Proof.
  event_cases ev w; rewrite ?processes_fire; simpl;
    by rewrite ?length_alter.
Qed.

Lemma length_processes_deliver_all evs w :
  length (processes (deliver_all evs w)) = length (processes w).
Proof.
  unfold deliver_all. revert w.
  induction evs as [|ev evs IH]; intros w; simpl; [done|].
  by rewrite IH, length_processes_deliver.
Qed.

Lemma length_arrays_deliver w ev :
  length (arrays (deliver w ev)) = length (arrays w).
Proof.
  event_cases ev w; rewrite ?arrays_fire; simpl;
    by rewrite ?length_insert.
Qed.

Lemma length_arrays_deliver_all evs w :
  length (arrays (deliver_all evs w)) = length (arrays w).
Proof.
  unfold deliver_all. revert w.
  induction evs as [|ev evs IH]; intros w; simpl; [done|].
  by rewrite IH, length_arrays_deliver.
Qed.

(** An event keeps how the processes were launched, their signals and
    their handlers: all it writes to a process is [exitCode]. *)
Lemma process_fields_deliver {A} (f : ChildProcess → A) w ev :
  (∀ p code,
      f (mkChildProcess (spawnfile p) (spawnargs p) (shell p)
           (stdout_data p) (on_error p) (on_close p) (Some code)
           (signals p)) = f p) →
  f <$> processes (deliver w ev) = f <$> processes w.
Proof.
  intros Hf. destruct ev as [pid data|pid code|pid|pid]; simpl.
  - by destruct (processes w !! pid ≫= stdout_data).
  - destruct (processes w !! pid) as [q|] eqn:E; [|done].
    rewrite processes_fire. simpl.
    apply list_eq. intros i. rewrite !list_lookup_fmap.
    destruct (decide (pid = i)) as [<-|Hne].
    + rewrite list_lookup_alter_eq, E. simpl. by rewrite Hf.
    + by rewrite list_lookup_alter_ne.
  - destruct (processes w !! pid); [|done]. by rewrite processes_fire.
  - destruct (processes w !! pid); [|done]. by rewrite processes_fire.
Qed.

Lemma process_fields_deliver_all {A} (f : ChildProcess → A) evs w :
  (∀ p code,
      f (mkChildProcess (spawnfile p) (spawnargs p) (shell p)
           (stdout_data p) (on_error p) (on_close p) (Some code)
           (signals p)) = f p) →
  f <$> processes (deliver_all evs w) = f <$> processes w.
Proof.
  intros Hf. unfold deliver_all. revert w.
  induction evs as [|ev evs IH]; intros w; simpl; [done|].
  by rewrite IH, process_fields_deliver.
Qed.

Lemma exit_code_deliver pid w ev :
  (pid < length (processes w))%nat →
  exit_code pid (deliver w ev) = exit_after pid (exit_code pid w) [ev].
Proof.
  intros Hlt. unfold exit_code, exit_after.
  destruct ev as [pid' data|pid' code|pid'|pid']; simpl.
  - by destruct (processes w !! pid' ≫= stdout_data).
  - destruct (processes w !! pid') as [q|] eqn:E.
    + rewrite processes_fire. simpl.
      destruct (decide (pid' = pid)) as [->|Hne].
      * rewrite list_lookup_alter_eq, E. done.
      * by rewrite list_lookup_alter_ne.
    + destruct (decide (pid' = pid)) as [->|Hne]; [|done].
      apply lookup_ge_None in E. lia.
  - destruct (processes w !! pid'); [|done]. by rewrite processes_fire.
  - destruct (processes w !! pid'); [|done]. by rewrite processes_fire.
Qed.

Lemma exit_code_deliver_all pid evs w :
  (pid < length (processes w))%nat →
  exit_code pid (deliver_all evs w) = exit_after pid (exit_code pid w) evs.
Proof.
  unfold deliver_all, exit_after. revert w.
  induction evs as [|ev evs IH]; intros w Hlt; [done|].
  cbn [foldl]. rewrite IH by by rewrite length_processes_deliver.
  by rewrite (exit_code_deliver pid w ev Hlt).
Qed.

(** The process a start spawns takes the next place of the process
    table, and the [exitCode] read after the settle delay is the code of
    its last exit during the delay. *)
Lemma at_settle_end_pid args env w :
  (at_settle_end args env w).1 = length (processes w).
Proof.
  unfold at_settle_end.
  pose proof (detect_device_world (arg_deviceId args) env w) as Hw1.
  destruct (detect_device _ env w) as [d w1]. simpl in Hw1.
  rewrite Hw1. destruct (arg_platform args); simpl;
    by rewrite length_processes_deliver_all.
Qed.

Lemma launch_exit_code file args sh buffer sid settle w :
  exit_code (length (processes w))
    (deliver_all settle
       (listen_close (spawn file args sh w).1 sid
          (listen_error (spawn file args sh w).1 sid
             (listen_stdout (spawn file args sh w).1 buffer
                (spawn file args sh w).2))))
  = last_exit (length (processes w)) settle.
Proof.
  rewrite exit_code_deliver_all.
  - unfold last_exit. f_equal. unfold exit_code, listen_close,
      listen_error, listen_stdout, with_process, spawn. simpl.
    rewrite !alter_app_r_alt, Nat.sub_diag by done. simpl.
    by rewrite lookup_app_r, Nat.sub_diag by done.
  - unfold listen_close, listen_error, listen_stdout, with_process, spawn.
    simpl. rewrite !length_alter, length_app. simpl. lia.
Qed.

Lemma exit_code_at_settle_end args env w :
  exit_code (at_settle_end args env w).1 (at_settle_end args env w).2
  = last_exit (length (processes w)) (during_settle env).
Proof.
  rewrite at_settle_end_pid. unfold at_settle_end.
  pose proof (detect_device_world (arg_deviceId args) env w) as Hw1.
  destruct (detect_device _ env w) as [d w1]. simpl in Hw1.
  assert (Hlen : length (processes (new_array w1).2) = length (processes w)).
  { simpl. by rewrite Hw1, length_processes_deliver_all. }
  destruct (new_array w1) as [b w2]. simpl in Hlen. rewrite <- Hlen.
  destruct (arg_platform args); apply launch_exit_code.
Qed.
End event_effects.

Lemma started_text_eq (p : Platform) (sid : str) (d : option str) :
  match p with
  | android => Android.started_text sid d
  | ios => Ios.started_text sid d
  end
  = match p with
    | android =>
        [9989%N] ++ js " Started Android log streaming for session " ++ sid
        ++ lf ++ js "Device: " ++ or_else d (js "default device")
        ++ lf ++ js "Command: "
        ++ match narrow d with
           | Some id => js "adb -s " ++ id ++ js " logcat -v time"
           | None => js "adb logcat -v time"
           end
        ++ lf ++ lf
        ++ js "Logs are being captured in real-time. Use 'get_logs' to retrieve them."
        ++ lf ++ lf ++ [55357%N; 56481%N]
        ++ js " Tip: Wait a few seconds for logs to buffer, then call get_logs to see them."
    | ios =>
        [9989%N] ++ js " Started iOS log streaming for session " ++ sid
        ++ lf ++ js "Device: " ++ or_else d (js "default device")
        ++ lf ++ js "Type: "
        ++ match narrow d with
           | Some id =>
               if includes 45 id || (len id >? 25)
               then js "iOS Simulator (simctl)"
               else js "iOS Device (idevicesyslog)"
           | None => js "iOS Device (idevicesyslog)"
           end
        ++ lf ++ js "Command: "
        ++ match narrow d with
           | Some id =>
               if includes 45 id || (len id >? 25)
               then js "xcrun simctl spawn " ++ id
                    ++ js " log stream --level debug"
               else js "idevicesyslog -u " ++ id
           | None => js "idevicesyslog"
           end
        ++ lf ++ lf
        ++ js "Logs are being captured in real-time. Use 'get_logs' to retrieve them."
        ++ lf ++ lf ++ [55357%N; 56481%N]
        ++ js " Tip: Wait a few seconds for logs to buffer, then call get_logs to see them."
    end.
Proof.
  destruct p.
  - unfold Android.started_text, Android.adbCmd, capture_hint, check_mark,
      light_bulb. by destruct (narrow d).
  - unfold Ios.started_text, Ios.plan, Ios.isSimulator, capture_hint,
      check_mark, light_bulb.
    destruct (narrow d) as [id|]; [|done].
    by destruct (includes 45 id || (len id >? 25)).
Qed.

(** X6.  A start that passes the duplicate guard fails exactly when the
    process it spawned exits with a status during the settle delay, and
    then with the failure text of its platform; otherwise it answers
    with the started text of its platform, whatever else happened in
    the meantime: a process that a signal closed has a null [exitCode]
    and is not seen. *)
Theorem start_outcome (args : StartArgs) (env : StartEnv) (w : World) :
  already_streaming (arg_sessionId args) w = None →
  (executeStartLogBroadcast args env w).1
  = match last_exit (length (processes w)) (during_settle env),
          arg_platform args with
    | Some code, android =>
        Throw
          (js "Failed to start adb logcat (exit code: " ++ of_number code
           ++ js "). Make sure adb is installed and device is connected. Try running 'adb devices' to verify.")
    | Some code, ios =>
        Throw
          match narrow (detect_device (arg_deviceId args) env w).1 with
          | Some id =>
              if includes 45 id || (len id >? 25)
              then js "Failed to start iOS simulator logs. Make sure Xcode is installed and simulator is running."
              else js "Failed to start iOS device logs. Make sure 'idevicesyslog' is installed (brew install libimobiledevice) and device is connected."
          | None =>
              js "Failed to start iOS device logs. Make sure 'idevicesyslog' is installed (brew install libimobiledevice) and device is connected."
          end
    | None, android =>
        Content
          ([9989%N] ++ js " Started Android log streaming for session "
           ++ arg_sessionId args
           ++ lf ++ js "Device: "
           ++ or_else (detect_device (arg_deviceId args) env w).1
                      (js "default device")
           ++ lf ++ js "Command: "
           ++ match narrow (detect_device (arg_deviceId args) env w).1 with
              | Some id => js "adb -s " ++ id ++ js " logcat -v time"
              | None => js "adb logcat -v time"
              end
           ++ lf ++ lf
           ++ js "Logs are being captured in real-time. Use 'get_logs' to retrieve them."
           ++ lf ++ lf ++ [55357%N; 56481%N]
           ++ js " Tip: Wait a few seconds for logs to buffer, then call get_logs to see them.")
    | None, ios =>
        Content
          ([9989%N] ++ js " Started iOS log streaming for session "
           ++ arg_sessionId args
           ++ lf ++ js "Device: "
           ++ or_else (detect_device (arg_deviceId args) env w).1
                      (js "default device")
           ++ lf ++ js "Type: "
           ++ match narrow (detect_device (arg_deviceId args) env w).1 with
              | Some id =>
                  if includes 45 id || (len id >? 25)
                  then js "iOS Simulator (simctl)"
                  else js "iOS Device (idevicesyslog)"
              | None => js "iOS Device (idevicesyslog)"
              end
           ++ lf ++ js "Command: "
           ++ match narrow (detect_device (arg_deviceId args) env w).1 with
              | Some id =>
                  if includes 45 id || (len id >? 25)
                  then js "xcrun simctl spawn " ++ id
                       ++ js " log stream --level debug"
                  else js "idevicesyslog -u " ++ id
              | None => js "idevicesyslog"
              end
           ++ lf ++ lf
           ++ js "Logs are being captured in real-time. Use 'get_logs' to retrieve them."
           ++ lf ++ lf ++ [55357%N; 56481%N]
           ++ js " Tip: Wait a few seconds for logs to buffer, then call get_logs to see them.")
    end.
Proof.
  intros Hg. rewrite (start_after_settle _ _ _ Hg). cbn zeta.
  rewrite <- (exit_code_at_settle_end args env w).
  pose proof (started_text_eq (arg_platform args) (arg_sessionId args)
                (detect_device (arg_deviceId args) env w).1) as Hstarted.
  pose proof (startup_failure_eq (arg_platform args)
                (detect_device (arg_deviceId args) env w).1) as Hfailure.
  destruct (at_settle_end args env w) as [p w']. cbn [fst snd].
  destruct (exit_code p w') as [code|]; cbn [fst].
  - rewrite Hfailure. by destruct (arg_platform args).
  - rewrite Hstarted. by destruct (arg_platform args).
Qed.

(** Beside the streaming s1: a start on an iOS device whose
    [idevicesyslog] is closed by a signal during the settle delay
    succeeds all the same; a start on android whose shell exits with
    127 fails. *)
Lemma start_outcome_witness :
  (executeStartLogBroadcast s2_device closed_by_signal s1_streaming).1
  = Content
      ([9989%N] ++ js " Started iOS log streaming for session s2" ++ lf
       ++ js "Device: a1b2c3d4e5f6" ++ lf
       ++ js "Type: iOS Device (idevicesyslog)" ++ lf
       ++ js "Command: idevicesyslog -u a1b2c3d4e5f6" ++ lf ++ lf
       ++ js "Logs are being captured in real-time. Use 'get_logs' to retrieve them."
       ++ lf ++ lf ++ [55357%N; 56481%N]
       ++ js " Tip: Wait a few seconds for logs to buffer, then call get_logs to see them.")
  ∧ (executeStartLogBroadcast s2_android (exits_with 127) s1_streaming).1
    = Throw (js "Failed to start adb logcat (exit code: 127). Make sure adb is installed and device is connected. Try running 'adb devices' to verify.").
Proof.
  split.
  - exact (start_outcome s2_device closed_by_signal s1_streaming eq_refl).
  - exact (start_outcome s2_android (exits_with 127) s1_streaming eq_refl).
Defined.

Section settled.
Implicit Types (w : World) (sid : str) (ev : ProcEvent)
  (m : list (str * LogSession)).

Lemma settled_refl kv : settled kv kv.
Proof. split; [done|by left]. Qed.

Lemma settled_trans kv1 kv2 kv3 :
  settled kv1 kv2 → settled kv2 kv3 → settled kv1 kv3.
Proof.
  intros [Hk1 H1] [Hk2 H2]. split; [congruence|].
  destruct H1 as [E1|E1], H2 as [E2|E2]; rewrite E2, E1; auto.
Qed.

Lemma Forall2_settled_refl m : Forall2 settled m m.
Proof. induction m; constructor; [apply settled_refl|done]. Qed.

Lemma set_settled sid s m :
  JsMap.get sid m = Some s →
  Forall2 settled m (JsMap.set sid (stop_streaming s) m).
Proof.
  induction m as [|[k0 v0] m IH]; simpl; [done|].
  destruct (decide (k0 = sid)) as [->|Hne].
  - intros [= ->]. constructor; [|apply Forall2_settled_refl].
    split; [done|by right].
  - intros H. constructor; [apply settled_refl|by apply IH].
Qed.

Lemma fire_settled h w :
  Forall2 settled (activeSessions w) (activeSessions (fire h w)).
Proof.
  destruct h as [sid|]; [|apply Forall2_settled_refl].
  simpl. unfold mark_stopped.
  destruct (JsMap.get sid (activeSessions w)) as [s|] eqn:E;
    [|apply Forall2_settled_refl].
  by apply set_settled.
Qed.

Lemma deliver_settled w ev :
  Forall2 settled (activeSessions w) (activeSessions (deliver w ev)).
Proof.
  destruct ev as [pid data|pid code|pid|pid]; simpl.
  - destruct (processes w !! pid ≫= stdout_data);
      apply Forall2_settled_refl.
  - destruct (processes w !! pid); [|apply Forall2_settled_refl].
    apply (fire_settled _ (with_process pid _ w)).
  - destruct (processes w !! pid); [|apply Forall2_settled_refl].
    apply fire_settled.
  - destruct (processes w !! pid); [|apply Forall2_settled_refl].
    apply fire_settled.
Qed.

Lemma deliver_all_settled evs w :
  Forall2 settled (activeSessions w) (activeSessions (deliver_all evs w)).
Proof.
  unfold deliver_all. revert w.
  induction evs as [|ev evs IH]; intros w; simpl;
    [apply Forall2_settled_refl|].
  eapply Forall2_trans; [|apply deliver_settled|apply IH].
  intros ???. apply settled_trans.
Qed.

Lemma settled_keys m m' :
  Forall2 settled m m' → JsMap.keys m' = JsMap.keys m.
Proof.
  unfold JsMap.keys. induction 1 as [|kv kv' m m' [Hk _] _ IH]; [done|].
  rewrite !fmap_cons. by rewrite Hk, IH.
Qed.

Lemma keys_deliver_all evs w :
  JsMap.keys (activeSessions (deliver_all evs w))
  = JsMap.keys (activeSessions w).
Proof. apply settled_keys, deliver_all_settled. Qed.
End settled.

(** X7.  Process events never add, remove or reorder sessions, and
    change nothing of a session but its streaming flag, which they can
    only turn off; they spawn and signal no process, rewire no handler
    and create no array. *)
Theorem events_only_stop_streaming (evs : list ProcEvent) (w : World) :
  Forall2 settled (activeSessions w) (activeSessions (deliver_all evs w))
  ∧ JsMap.keys (activeSessions (deliver_all evs w))
    = JsMap.keys (activeSessions w)
  ∧ launch_records (deliver_all evs w) = launch_records w
  ∧ wiring (deliver_all evs w) = wiring w
  ∧ length (arrays (deliver_all evs w)) = length (arrays w).
Proof.
  split; [apply deliver_all_settled|].
  split; [apply keys_deliver_all|].
  split; [by apply process_fields_deliver_all|].
  split; [by apply process_fields_deliver_all|].
  apply length_arrays_deliver_all.
Qed.

(** X8.  When a process exits, its 'close' handler turns off the
    streaming flag of the session that sits under the id the process
    was started for, whichever process that session owns (after a
    restart it is another one), and touches no other session. *)
Theorem exit_marks_session_of_id
    (w : World) (pid : nat) (p : ChildProcess) (sid k : str) (code : Z) :
  processes w !! pid = Some p →
  on_close p = Some sid →
  JsMap.get k (activeSessions (deliver w (Exit pid code)))
  = if decide (sid = k)
    then stop_streaming <$> JsMap.get k (activeSessions w)
    else JsMap.get k (activeSessions w).
Proof.
  intros Hp Hclose. simpl. rewrite Hp, Hclose. simpl.
  apply (get_mark_stopped sid k (with_process pid _ w)).
Qed.

Lemma exit_marks_session_of_id_witness :
  JsMap.get (js "s1") (activeSessions s1_restarted)
  = Some (mkLogSession (js "s1") (js "http://localhost:4723") android
                       None (Some 1%nat) 1%nat true)
  ∧ exit_code 1 (deliver s1_restarted (Exit 0 0)) = None
  ∧ JsMap.get (js "s1") (activeSessions (deliver s1_restarted (Exit 0 0)))
    = Some (mkLogSession (js "s1") (js "http://localhost:4723") android
                         None (Some 1%nat) 1%nat false).
Proof.
  split; [reflexivity|]. split; [reflexivity|].
  exact (exit_marks_session_of_id s1_restarted 0
    (mkChildProcess (js "adb logcat -v time") [] true (Some 0%nat)
                    (Some (js "s1")) (Some (js "s1")) None [])
    (js "s1") (js "s1") 0 eq_refl eq_refl).
Defined.

(** ** What a start leaves behind *)

Section started.
Implicit Types (w : World) (sid : str) (m : list (str * LogSession)).

Lemma keys_set sid (s : LogSession) m :
  JsMap.keys (JsMap.set sid s m)
  = if JsMap.has sid m then JsMap.keys m else JsMap.keys m ++ [sid].
Proof.
  unfold JsMap.has, JsMap.keys. induction m as [|[k0 v0] m IH]; [done|].
  cbn [JsMap.set JsMap.get]. destruct (decide (k0 = sid)) as [->|Hne].
  - by rewrite !fmap_cons.
  - rewrite !fmap_cons, IH. by destruct (JsMap.get sid m).
Qed.

Lemma delete_set_absent sid (s : LogSession) m :
  JsMap.get sid m = None → JsMap.delete sid (JsMap.set sid s m) = m.
Proof.
  induction m as [|[k0 v0] m IH]; simpl.
  - by rewrite decide_True.
  - destruct (decide (k0 = sid)) as [->|Hne]; [done|]. simpl.
    rewrite decide_False by done. intros H. by rewrite IH.
Qed.

(** The state a successful start ends in. *)
Lemma start_success_world args env w :
  already_streaming (arg_sessionId args) w = None →
  last_exit (length (processes w)) (during_settle env) = None →
  (executeStartLogBroadcast args env w).2
  = with_sessions
      (JsMap.set (arg_sessionId args)
         (mkLogSession (arg_sessionId args)
            (or_else (arg_serverUrl args) (js "http://localhost:4723"))
            (arg_platform args)
            (detect_device (arg_deviceId args) env w).1
            (Some (length (processes w))) (length (arrays w)) true))
      (at_settle_end args env w).2.
Proof.
  intros Hg Hexit. rewrite (start_after_settle _ _ _ Hg). cbn zeta.
  rewrite <- (exit_code_at_settle_end args env w) in Hexit.
  rewrite <- (at_settle_end_pid args env w).
  rewrite detect_device_world, length_arrays_deliver_all.
  destruct (at_settle_end args env w) as [p w']. simpl in *.
  by rewrite Hexit.
Qed.

Lemma start_failure_world args env w code :
  already_streaming (arg_sessionId args) w = None →
  last_exit (length (processes w)) (during_settle env) = Some code →
  (executeStartLogBroadcast args env w).2 = (at_settle_end args env w).2.
Proof.
  intros Hg Hexit. rewrite (start_after_settle _ _ _ Hg). cbn zeta.
  rewrite <- (exit_code_at_settle_end args env w) in Hexit.
  destruct (at_settle_end args env w) as [p w']. simpl in *.
  by rewrite Hexit.
Qed.

Lemma launch_records_spawn file args sh buffer sid settle w :
  launch_records
    (deliver_all settle
       (listen_close (spawn file args sh w).1 sid
          (listen_error (spawn file args sh w).1 sid
             (listen_stdout (spawn file args sh w).1 buffer
                (spawn file args sh w).2))))
  = launch_records w ++ [(file, args, sh, [])].
Proof.
  unfold launch_records. rewrite process_fields_deliver_all by done.
  unfold listen_close, listen_error, listen_stdout, with_process, spawn.
  simpl. rewrite !alter_app_r_alt, Nat.sub_diag by done. simpl.
  by rewrite fmap_app.
Qed.

Lemma launch_records_at_settle_end args env w :
  launch_records (at_settle_end args env w).2
  = launch_records w
    ++ [match arg_platform args with
        | android =>
            (Android.adbCmd (detect_device (arg_deviceId args) env w).1,
             [], true, [])
        | ios =>
            (Ios.file (Ios.plan (detect_device (arg_deviceId args) env w).1),
             Ios.args (Ios.plan (detect_device (arg_deviceId args) env w).1),
             false, [])
        end].
Proof.
  unfold at_settle_end.
  pose proof (detect_device_world (arg_deviceId args) env w) as Hw1.
  destruct (detect_device _ env w) as [d w1]. simpl in *.
  assert (Hrec : launch_records w1 = launch_records w).
  { rewrite Hw1. unfold launch_records.
    by apply process_fields_deliver_all. }
  destruct (arg_platform args);
    (etrans; [apply launch_records_spawn|]); f_equal; exact Hrec.
Qed.
End started.

(** X9.  A start that passes the duplicate guard and whose process does
    not exit with a code during the settle delay registers, under the
    session id, a streaming session with the device id in use, the
    process just spawned and a new array; every other entry is as the
    process events of the meantime left it, and a session that was
    there under the id is replaced where it stood. *)
Theorem start_registers_session
    (args : StartArgs) (env : StartEnv) (w : World) :
  already_streaming (arg_sessionId args) w = None →
  last_exit (length (processes w)) (during_settle env) = None →
  JsMap.get (arg_sessionId args)
    (activeSessions (executeStartLogBroadcast args env w).2)
  = Some (mkLogSession (arg_sessionId args)
            (or_else (arg_serverUrl args) (js "http://localhost:4723"))
            (arg_platform args)
            (detect_device (arg_deviceId args) env w).1
            (Some (length (processes w))) (length (arrays w)) true)
  ∧ (∀ k, k ≠ arg_sessionId args →
          JsMap.get k (activeSessions (executeStartLogBroadcast args env w).2)
          = JsMap.get k
              (activeSessions (deliver_all (interleaved args env) w)))
  ∧ JsMap.keys (activeSessions (executeStartLogBroadcast args env w).2)
    = if JsMap.has (arg_sessionId args) (activeSessions w)
      then JsMap.keys (activeSessions w)
      else JsMap.keys (activeSessions w) ++ [arg_sessionId args].
Proof.
  intros Hg Hexit. rewrite (start_success_world _ _ _ Hg Hexit). simpl.
  pose proof (guard_quiet _ _ Hg) as Hq.
  rewrite (sessions_at_settle_end _ _ _ Hq).
  split; [apply get_set_eq|]. split.
  - intros k Hk. by rewrite get_set_ne.
  - rewrite keys_set, keys_deliver_all. unfold JsMap.has.
    by rewrite (get_deliver_all_quiet _ _ _ Hq).
Qed.

Lemma start_registers_session_witness :
  JsMap.get (js "s1")
    (activeSessions
       (executeStartLogBroadcast s1_android undisturbed
          (deliver s1_streaming (Exit 0 1))).2)
  = Some (mkLogSession (js "s1") (js "http://localhost:4723") android
                       None (Some 1%nat) 1%nat true)
  ∧ JsMap.keys
      (activeSessions
         (executeStartLogBroadcast s1_android undisturbed
            (deliver s1_streaming (Exit 0 1))).2)
    = [js "s1"].
Proof.
  pose proof (start_registers_session s1_android undisturbed
                (deliver s1_streaming (Exit 0 1)) eq_refl eq_refl)
    as (Hget & _ & Hkeys).
  split; [exact Hget|exact Hkeys].
Defined.

(** X10.  Every start that passes the duplicate guard, failed or not,
    adds exactly one process to the table: [adb] as one shell command
    line with no argument, or [xcrun] or [idevicesyslog] with their
    arguments and no shell.  It signals no process: the one of a session
    that is started again, and the one of a start that failed, are left
    as they were. *)
Theorem start_spawns_one_process
    (args : StartArgs) (env : StartEnv) (w : World) :
  already_streaming (arg_sessionId args) w = None →
  launch_records (executeStartLogBroadcast args env w).2
  = launch_records w
    ++ [match arg_platform args with
        | android =>
            (Android.adbCmd (detect_device (arg_deviceId args) env w).1,
             [], true, [])
        | ios =>
            (Ios.file (Ios.plan (detect_device (arg_deviceId args) env w).1),
             Ios.args (Ios.plan (detect_device (arg_deviceId args) env w).1),
             false, [])
        end].
Proof.
  intros Hg. rewrite <- launch_records_at_settle_end.
  destruct (last_exit (length (processes w)) (during_settle env))
    as [code|] eqn:Hexit.
  - by rewrite (start_failure_world _ _ _ _ Hg Hexit).
  - by rewrite (start_success_world _ _ _ Hg Hexit).
Qed.

Lemma start_spawns_one_process_witness :
  launch_records
    (executeStartLogBroadcast
       (mkStartArgs (js "s1") android None (Some (js "emulator-5554")))
       undisturbed (deliver s1_streaming (Exit 0 1))).2
  = [(js "adb logcat -v time", [], true, []);
     (js "adb -s emulator-5554 logcat -v time", [], true, [])].
Proof.
  exact (start_spawns_one_process
    (mkStartArgs (js "s1") android None (Some (js "emulator-5554")))
    undisturbed (deliver s1_streaming (Exit 0 1)) eq_refl).
Defined.

(** ** Sessions, their processes and their buffers *)

Section projections.
Context {V B : Type} (f : str * V → B).
Implicit Types (m : list (str * V)) (k : str) (v : V).

Lemma elem_of_fmap_delete k m y :
  y ∈ f <$> JsMap.delete k m → y ∈ f <$> m.
Proof.
  rewrite delete_filter, !list_elem_of_fmap. intros (x & -> & Hx).
  apply list_elem_of_filter in Hx as [_ Hx]. by exists x.
Qed.

Lemma NoDup_fmap_delete k m :
  NoDup (f <$> m) → NoDup (f <$> JsMap.delete k m).
Proof.
  induction m as [|[k0 v0] m IH]; [done|].
  rewrite fmap_cons, NoDup_cons. intros [Hnotin Hnd]. cbn [JsMap.delete].
  destruct (decide (k0 = k)); [by apply IH|].
  rewrite fmap_cons, NoDup_cons. split; [|by apply IH].
  intros Hin. by apply Hnotin, (elem_of_fmap_delete k).
Qed.

Lemma elem_of_fmap_set k v m y :
  y ∈ f <$> JsMap.set k v m → y = f (k, v) ∨ y ∈ f <$> m.
Proof.
  induction m as [|[k0 v0] m IH]; cbn [JsMap.set].
  - rewrite list_fmap_singleton, list_elem_of_singleton. by left.
  - destruct (decide (k0 = k)); rewrite !fmap_cons, !elem_of_cons.
    + intros [->|H]; auto.
    + intros [->|H]; [auto|]. destruct (IH H); auto.
Qed.

Lemma NoDup_fmap_set k v m :
  NoDup (f <$> m) → f (k, v) ∉ f <$> m → NoDup (f <$> JsMap.set k v m).
Proof.
  induction m as [|[k0 v0] m IH]; cbn [JsMap.set].
  - intros _ _. rewrite list_fmap_singleton. apply NoDup_singleton.
  - rewrite fmap_cons, NoDup_cons, not_elem_of_cons.
    intros [Hnotin Hnd] [Hne Hfresh].
    destruct (decide (k0 = k)); rewrite fmap_cons, NoDup_cons.
    + done.
    + split; [|by apply IH]. intros Hin.
      apply elem_of_fmap_set in Hin as [Heq|Hin]; [by apply Hne|done].
Qed.

Lemma NoDup_fmap_get k k' v v' m :
  NoDup (f <$> m) → k ≠ k' →
  JsMap.get k m = Some v → JsMap.get k' m = Some v' →
  f (k, v) ≠ f (k', v').
Proof.
  assert (Hin : ∀ k v m, JsMap.get k m = Some v → f (k, v) ∈ f <$> m).
  { clear. intros k v m. induction m as [|[k0 v0] m IH]; simpl; [done|].
    destruct (decide (k0 = k)) as [->|Hne].
    - intros [= ->]. apply elem_of_cons. by left.
    - intros H. apply elem_of_cons. right. by apply IH. }
  induction m as [|[k0 v0] m IH]; simpl; [done|].
  rewrite NoDup_cons. intros [Hnotin Hnd] Hne.
  destruct (decide (k0 = k)) as [E1|Hk]; destruct (decide (k0 = k')) as [E2|Hk'].
  - congruence.
  - subst k0. intros [= ->] Hget Heq. apply Hnotin. rewrite Heq.
    by apply Hin.
  - subst k0. intros Hget [= ->] Heq. apply Hnotin. rewrite <- Heq.
    by apply Hin.
  - by apply IH.
Qed.
End projections.

Lemma fmap_alter_same {A B} (g : A → B) (f : A → A) (i : nat) (l : list A) :
  (∀ x, g (f x) = g x) → g <$> alter f i l = g <$> l.
Proof.
  intros Hg. apply list_eq. intros j. rewrite !list_lookup_fmap.
  destruct (decide (i = j)) as [<-|Hne].
  - rewrite list_lookup_alter_eq. destruct (l !! i); simpl; [|done].
    by rewrite Hg.
  - by rewrite list_lookup_alter_ne.
Qed.

Section wired.
Implicit Types (w : World) (sid : str) (m : list (str * LogSession)).

Lemma wired_entry_settled n n' wires more kv kv' :
  wired_entry n wires kv → settled kv kv' → (n ≤ n')%nat →
  wired_entry n' (wires ++ more) kv'.
Proof.
  intros [Hlt (pid & Hp & Hw)] [Hk Hs] Hn.
  assert (Hb : logBuffer kv'.2 = logBuffer kv.2)
    by by destruct Hs as [->| ->].
  assert (Hpr : logProcess kv'.2 = logProcess kv.2)
    by by destruct Hs as [->| ->].
  split; [lia|]. exists pid. rewrite Hb, Hpr, Hk.
  split; [done|]. by apply lookup_app_l_Some.
Qed.

Lemma wired_grow w w' more :
  wired w →
  Forall2 settled (activeSessions w) (activeSessions w') →
  wiring w' = wiring w ++ more →
  (length (arrays w) ≤ length (arrays w'))%nat →
  wired w'.
Proof.
  intros [Hall Hnd] Hs Hw Hn. split.
  - rewrite Hw. clear Hnd Hw.
    induction Hs as [|kv kv' m m' Hkv _ IH]; [done|].
    apply Forall_cons in Hall as [H1 Hall].
    constructor; [|by apply IH].
    by eapply (wired_entry_settled _ _ _ _ kv kv').
  - replace ((λ kv : str * LogSession, logBuffer kv.2) <$> activeSessions w')
      with ((λ kv : str * LogSession, logBuffer kv.2) <$> activeSessions w);
      [done|].
    clear Hall Hnd. induction Hs as [|kv kv' m m' [_ Hkv] _ IH]; [done|].
    rewrite !fmap_cons, IH. f_equal. by destruct Hkv as [->| ->].
Qed.

Lemma wired_deliver_all evs w : wired w → wired (deliver_all evs w).
Proof.
  intros Hw. apply (wired_grow w _ []); [done|..].
  - apply deliver_all_settled.
  - rewrite app_nil_r. unfold wiring. by apply process_fields_deliver_all.
  - by rewrite length_arrays_deliver_all.
Qed.

Lemma wiring_spawn file args sh buffer sid settle w :
  wiring
    (deliver_all settle
       (listen_close (spawn file args sh w).1 sid
          (listen_error (spawn file args sh w).1 sid
             (listen_stdout (spawn file args sh w).1 buffer
                (spawn file args sh w).2))))
  = wiring w ++ [(Some buffer, Some sid, Some sid)].
Proof.
  unfold wiring. rewrite process_fields_deliver_all by done.
  unfold listen_close, listen_error, listen_stdout, with_process, spawn.
  simpl. rewrite !alter_app_r_alt, Nat.sub_diag by done. simpl.
  by rewrite fmap_app.
Qed.

Lemma sessions_spawn file args sh buffer sid settle w :
  Forall2 settled (activeSessions w)
    (activeSessions
       (deliver_all settle
          (listen_close (spawn file args sh w).1 sid
             (listen_error (spawn file args sh w).1 sid
                (listen_stdout (spawn file args sh w).1 buffer
                   (spawn file args sh w).2))))).
Proof.
  apply (deliver_all_settled settle
    (listen_close (spawn file args sh w).1 sid
       (listen_error (spawn file args sh w).1 sid
          (listen_stdout (spawn file args sh w).1 buffer
             (spawn file args sh w).2)))).
Qed.

Lemma arrays_spawn file args sh buffer sid settle w :
  length (arrays
    (deliver_all settle
       (listen_close (spawn file args sh w).1 sid
          (listen_error (spawn file args sh w).1 sid
             (listen_stdout (spawn file args sh w).1 buffer
                (spawn file args sh w).2)))))
  = length (arrays w).
Proof. by rewrite length_arrays_deliver_all. Qed.

(** The state at the end of the settle delay: the sessions of before,
    settled; one more process, wired to the new array and the session
    id; one more array. *)
Lemma at_settle_end_shape args env w :
  Forall2 settled (activeSessions w)
          (activeSessions (at_settle_end args env w).2)
  ∧ wiring (at_settle_end args env w).2
    = wiring w ++ [(Some (length (arrays w)), Some (arg_sessionId args),
                    Some (arg_sessionId args))]
  ∧ length (arrays (at_settle_end args env w).2) = S (length (arrays w)).
Proof.
  unfold at_settle_end.
  pose proof (detect_device_world (arg_deviceId args) env w) as Hw1.
  destruct (detect_device _ env w) as [d w1]. simpl in Hw1.
  assert (H1 : Forall2 settled (activeSessions w) (activeSessions w1))
    by (rewrite Hw1; apply deliver_all_settled).
  assert (H2 : wiring w1 = wiring w)
    by (rewrite Hw1; unfold wiring; by apply process_fields_deliver_all).
  assert (H3 : length (arrays w1) = length (arrays w))
    by (rewrite Hw1; apply length_arrays_deliver_all).
  unfold new_array. rewrite <- H2, <- H3.
  destruct (arg_platform args).
  - split; [|split].
    + eapply Forall2_trans;
        [|exact H1|apply (sessions_spawn _ _ _ _ _ _ (new_array w1).2)].
      intros ???. apply settled_trans.
    + etrans; [apply wiring_spawn|done].
    + etrans; [apply arrays_spawn|]. simpl. rewrite length_app. simpl. lia.
  - split; [|split].
    + eapply Forall2_trans;
        [|exact H1|apply (sessions_spawn _ _ _ _ _ _ (new_array w1).2)].
      intros ???. apply settled_trans.
    + etrans; [apply wiring_spawn|done].
    + etrans; [apply arrays_spawn|]. simpl. rewrite length_app. simpl. lia.
Qed.

Lemma length_wiring w : length (wiring w) = length (processes w).
Proof. unfold wiring. by rewrite length_fmap. Qed.

Lemma wired_set sid (session : LogSession) w :
  wired w →
  wired_entry (length (arrays w)) (wiring w) (sid, session) →
  logBuffer session
    ∉ (λ kv : str * LogSession, logBuffer kv.2) <$> activeSessions w →
  wired (with_sessions (JsMap.set sid session) w).
Proof.
  intros [Hall Hnd] Hentry Hfresh. split.
  - by apply (Forall_set _ (activeSessions w)).
  - by apply (NoDup_fmap_set _ sid session (activeSessions w)).
Qed.

Lemma start_wired args env w :
  wired w → wired (executeStartLogBroadcast args env w).2.
Proof.
  intros Hw.
  destruct (already_streaming (arg_sessionId args) w) as [text|] eqn:Hg.
  { unfold executeStartLogBroadcast. by rewrite Hg. }
  destruct (at_settle_end_shape args env w) as (Hs & Hwires & Hlen).
  assert (Hw' : wired (at_settle_end args env w).2).
  { eapply wired_grow; [exact Hw|exact Hs|exact Hwires|lia]. }
  destruct (last_exit (length (processes w)) (during_settle env))
    as [code|] eqn:Hexit.
  { by rewrite (start_failure_world _ _ _ _ Hg Hexit). }
  rewrite (start_success_world _ _ _ Hg Hexit).
  apply wired_set; [done|..].
  - split; [cbn [snd logBuffer]; lia|].
    exists (length (processes w)). split; [done|].
    rewrite Hwires, lookup_app_r, length_wiring, Nat.sub_diag;
      [done|by rewrite length_wiring].
  - cbn [logBuffer]. intros Hin.
    apply list_elem_of_fmap in Hin as (kv & Hb & Hin).
    destruct Hw as [Hold _].
    assert (Hlt : Forall (λ kv : str * LogSession,
                            (logBuffer kv.2 < length (arrays w))%nat)
                    (activeSessions (at_settle_end args env w).2)).
    { clear -Hold Hs. induction Hs as [|x y m m' [_ Hxy] _ IH]; [done|].
      apply Forall_cons in Hold as [[Hx _] Hold].
      constructor; [|by apply IH].
      by destruct Hxy as [->| ->]. }
    pose proof (proj1 (Forall_forall _ _) Hlt _ Hin) as Hkv.
    simpl in Hkv. lia.
Qed.

Lemma stop_wired sid k w :
  wired w → wired (executeStopLogBroadcast sid k w).2.
Proof.
  intros [Hall Hnd].
  assert (Hwires : wiring (executeStopLogBroadcast sid k w).2 = wiring w).
  { unfold executeStopLogBroadcast.
    destruct (JsMap.get sid _) as [session|]; [|done].
    destruct (logProcess session) as [pid|]; [|done].
    destruct k; try done. unfold wiring. simpl.
    by apply fmap_alter_same. }
  split; rewrite ?Hwires, stop_sessions, ?stop_arrays.
  - by apply Forall_delete.
  - by apply NoDup_fmap_delete.
Qed.

Lemma clear_wired sid w :
  wired w → wired (executeClearLogBuffer sid w).2.
Proof.
  intros Hw. unfold executeClearLogBuffer.
  destruct (JsMap.get sid _) as [session|]; [|done].
  destruct Hw as [Hall Hnd]. split; [|done]. simpl.
  unfold wiring. simpl. by rewrite length_insert.
Qed.

Lemma step_wired w a : wired w → wired (step w a).
Proof.
  intros Hw. destruct a; simpl.
  - by apply start_wired.
  - by apply stop_wired.
  - by rewrite get_unchanged.
  - by apply clear_wired.
  - by apply (wired_deliver_all [ev]).
Qed.
End wired.

Lemma run_wired (history : list Action) : wired (run history).
Proof.
  unfold run. assert (H0 : wired initial) by (split; constructor).
  revert H0. generalize initial as w.
  induction history as [|a history IH]; intros w Hw; simpl; [done|].
  by apply IH, step_wired.
Qed.

Lemma wiring_lookup (w : World) (pid : nat) (b : option nat)
    (e c : option str) :
  wiring w !! pid = Some (b, e, c) →
  ∃ p, processes w !! pid = Some p
       ∧ stdout_data p = b ∧ on_error p = e ∧ on_close p = c.
Proof.
  unfold wiring. rewrite list_lookup_fmap.
  destruct (processes w !! pid) as [p|]; [|done].
  intros [= <- <- <-]. by exists p.
Qed.

(** X11.  Along every history, every registered session has a process
    handle; that process is in the table, its stdout handler fills the
    session's buffer, and its 'error' and 'close' handlers carry the
    session's id; the buffer is an array of the store, and no two
    sessions share one. *)
Theorem sessions_wired (history : list Action) :
  Forall (λ kv : str * LogSession,
            (logBuffer kv.2 < length (arrays (run history)))%nat
            ∧ ∃ pid p,
                logProcess kv.2 = Some pid
                ∧ processes (run history) !! pid = Some p
                ∧ stdout_data p = Some (logBuffer kv.2)
                ∧ on_error p = Some kv.1
                ∧ on_close p = Some kv.1)
         (activeSessions (run history))
  ∧ NoDup (logBuffer <$> listed (run history)).
Proof.
  destruct (run_wired history) as [Hall Hnd]. split.
  - eapply Forall_impl; [exact Hall|].
    intros kv [Hlt (pid & Hp & Hwire)]. split; [done|].
    destruct (wiring_lookup _ _ _ _ _ Hwire) as (p & ? & ? & ? & ?).
    by exists pid, p.
  - unfold listed, JsMap.values. by rewrite <- list_fmap_compose.
Qed.

Section isolation.
Implicit Types (w : World) (sid : str).

Lemma read_write_in_range (r : nat) (a : list str) w :
  (r < length (arrays w))%nat → read r (write r a w) = a.
Proof.
  intros Hlt. unfold read, write. simpl.
  by rewrite list_lookup_insert_eq.
Qed.

Lemma distinct_buffers history sid sid' (s s' : LogSession) :
  sid ≠ sid' →
  JsMap.get sid (activeSessions (run history)) = Some s →
  JsMap.get sid' (activeSessions (run history)) = Some s' →
  logBuffer s ≠ logBuffer s'.
Proof.
  intros Hne Hs Hs'. destruct (run_wired history) as [_ Hnd].
  exact (NoDup_fmap_get (λ kv : str * LogSession, logBuffer kv.2)
           sid sid' s s' _ Hnd Hne Hs Hs').
Qed.
End isolation.

Section sessions_apart.
Implicit Types (w : World) (sid : str).

(** X12.  Along every history, clearing one session changes the report
    [get_logs] gives for no other session. *)
Theorem clear_leaves_other_sessions
    (history : list Action) (sid sid' : str)
    (maxLines : option Num.number) :
  sid' ≠ sid →
  (executeGetLogs sid' maxLines
     (executeClearLogBuffer sid (run history)).2).1
  = (executeGetLogs sid' maxLines (run history)).1.
Proof.
  intros Hne. unfold executeClearLogBuffer.
  destruct (JsMap.get sid (activeSessions (run history)))
    as [s|] eqn:Hs; [|done].
  unfold executeGetLogs. simpl.
  destruct (JsMap.get sid' (activeSessions (run history)))
    as [s'|] eqn:Hs'; [|done].
  simpl. rewrite read_write_ne; [done|].
  by apply (distinct_buffers history sid' sid s' s).
Qed.

Lemma run_snoc (history : list Action) (a : Action) :
  run (history ++ [a]) = step (run history) a.
Proof. unfold run. by rewrite foldl_snoc. Qed.

Lemma output_buffered
    (history : list Action) (sid : str) (session : LogSession)
    (pid : nat) (data : str) :
  JsMap.get sid (activeSessions (run history)) = Some session →
  logProcess session = Some pid →
  read (logBuffer session) (deliver (run history) (StdoutData pid data))
  = on_stdout_data (read (logBuffer session) (run history)) data.
Proof.
  intros Hs Hp. destruct (run_wired history) as [Hall _].
  pose proof (Forall_get _ _ _ _ Hall Hs) as [Hlt (pid' & Hp' & Hwire)].
  simpl in *. rewrite Hp in Hp'. injection Hp' as <-.
  destruct (wiring_lookup _ _ _ _ _ Hwire) as (p & Hproc & Hout & _ & _).
  rewrite Hproc. simpl. rewrite Hout. by apply read_write_in_range.
Qed.

(** X13.  Along every history, a chunk on the stdout of a session's
    process goes through the handler into that session's buffer, and
    into no other session's. *)
Theorem session_output_buffered
    (history : list Action) (sid : str) (session : LogSession)
    (pid : nat) (data : str) :
  JsMap.get sid (activeSessions (run history)) = Some session →
  logProcess session = Some pid →
  read (logBuffer session) (deliver (run history) (StdoutData pid data))
  = on_stdout_data (read (logBuffer session) (run history)) data
  ∧ ∀ sid' session',
      sid' ≠ sid →
      JsMap.get sid' (activeSessions (run history)) = Some session' →
      read (logBuffer session') (deliver (run history) (StdoutData pid data))
      = read (logBuffer session') (run history).
Proof.
  intros Hs Hp. split; [by apply (output_buffered history sid)|].
  destruct (run_wired history) as [Hall _].
  pose proof (Forall_get _ _ _ _ Hall Hs) as [Hlt (pid' & Hp' & Hwire)].
  simpl in *. rewrite Hp in Hp'. injection Hp' as <-.
  destruct (wiring_lookup _ _ _ _ _ Hwire) as (p & Hproc & Hout & _ & _).
  rewrite Hproc. simpl. rewrite Hout.
  intros sid' s' Hne Hs'. apply read_write_ne.
  by apply (distinct_buffers history sid' sid s' session).
Qed.

(** X14.  Clearing does not stop the capture: along every history, the
    next chunk of the session's process after a clear is buffered from
    an empty buffer. *)
Theorem clear_then_output
    (history : list Action) (sid : str) (session : LogSession)
    (pid : nat) (data : str) :
  JsMap.get sid (activeSessions (run history)) = Some session →
  logProcess session = Some pid →
  read (logBuffer session)
    (deliver (executeClearLogBuffer sid (run history)).2
       (StdoutData pid data))
  = on_stdout_data [] data.
Proof.
  intros Hs Hp.
  assert (Hrun : (executeClearLogBuffer sid (run history)).2
                 = run (history ++ [CallClear sid])) by by rewrite run_snoc.
  rewrite Hrun.
  rewrite (output_buffered (history ++ [CallClear sid]) sid session pid).
  - rewrite <- Hrun. unfold executeClearLogBuffer. rewrite Hs. simpl.
    by rewrite read_write_eq.
  - by rewrite <- Hrun, clear_sessions.
  - done.
Qed.
End sessions_apart.

Lemma clear_leaves_other_sessions_witness :
  (executeGetLogs (js "s2") None
     (executeClearLogBuffer (js "s1") (run two_sessions)).2).1
  = (executeGetLogs (js "s2") None (run two_sessions)).1.
Proof.
  apply (clear_leaves_other_sessions two_sessions (js "s1") (js "s2") None).
  vm_compute. discriminate.
Defined.

Lemma session_output_buffered_witness :
  read 0 (deliver (run two_sessions) (StdoutData 0 (js "d" ++ lf)))
  = [js "a"; js "b"; js "c"; js "d"]
  ∧ read 1 (deliver (run two_sessions) (StdoutData 0 (js "d" ++ lf)))
    = [js "x"].
Proof.
  pose proof (session_output_buffered two_sessions (js "s1") s1_session
                0 (js "d" ++ lf) eq_refl eq_refl) as [Hown Hother].
  split; [exact Hown|].
  refine (Hother (js "s2")
            (mkLogSession (js "s2") (js "http://localhost:4723") ios
               (Some (js "a1b2c3d4e5f6")) (Some 1%nat) 1%nat true) _ eq_refl).
  vm_compute. discriminate.
Defined.

Lemma clear_then_output_witness :
  read 0
    (deliver (executeClearLogBuffer (js "s1") (run two_sessions)).2
       (StdoutData 0 (js "d" ++ lf)))
  = [js "d"].
Proof.
  exact (clear_then_output two_sessions (js "s1") s1_session 0
           (js "d" ++ lf) eq_refl eq_refl).
Defined.


(** ** More on single tools *)

(** X15.  A negative [maxLines] is not refused: [slice] then counts
    from the front, so the report leaves out the first
    [floor (-maxLines)] lines instead of showing the last ones, and
    always ends with the note about lines left out. *)
Theorem get_logs_negative
    (sid : str) (maxLines : Num.number) (q : Q) (w : World)
    (session : LogSession) :
  JsMap.get sid (activeSessions w) = Some session →
  Num.value_of maxLines = Num.Finite q →
  (q < 0)%Q →
  executeGetLogs sid (Some maxLines) w
  = (Content
       (js "=== "
        ++ match platform session with
           | android => js "ANDROID"
           | ios => js "IOS"
           end
        ++ js " Logs for Session " ++ sid ++ js " ===" ++ lf
        ++ js "Status: "
        ++ (if isStreaming session then js "Streaming" else js "Stopped")
        ++ lf
        ++ js "Device: " ++ or_else (deviceId session) (js "default") ++ lf
        ++ js "Total logs captured: "
        ++ of_number (len (read (logBuffer session) w)) ++ lf
        ++ js "Showing last "
        ++ of_number
             (len (drop (Z.to_nat (Qfloor (- q)))
                        (read (logBuffer session) w)))
        ++ js " lines:" ++ lf
        ++ lf
        ++ join lf (drop (Z.to_nat (Qfloor (- q)))
                         (read (logBuffer session) w))
        ++ lf
        ++ lf
        ++ lf ++ js "(Showing " ++ Num.text_of maxLines ++ js " of "
        ++ of_number (len (read (logBuffer session) w))
        ++ js " total lines. Increase maxLines to see more.)"),
     w).
Proof.
  intros Hget Hv Hq.
  assert (Hpos : (0 <= - q)%Q).
  { apply (Qopp_le_compat q 0). by apply Qlt_le_weak. }
  assert (Hfloor : 0 ≤ Qfloor (- q)).
  { change 0 with (Qfloor 0). by apply Qfloor_resp_le. }
  unfold executeGetLogs, max_lines_or_default.
  rewrite (not_falsy maxLines q Hv), Hget, Hv.
  - unfold Num.slice. cbn [Num.neg Num.ToIntegerOrInfinity].
    rewrite (truncate_nonneg _ Hpos). unfold slice.
    destruct (Z.ltb_spec (Qfloor (- q)) 0) as [|_]; [lia|].
    assert (Hdrop :
      drop (Z.to_nat (Z.min (Qfloor (- q))
                            (len (read (logBuffer session) w))))
           (read (logBuffer session) w)
      = drop (Z.to_nat (Qfloor (- q))) (read (logBuffer session) w)).
    { destruct (Z.min_spec (Qfloor (- q))
                  (len (read (logBuffer session) w)))
        as [[_ ->]|[Hle ->]]; [done|].
      rewrite !drop_ge; [done|unfold len in *; lia..]. }
    rewrite Hdrop, logs_text_eq, Hv, below_spec.
    destruct (Qlt_le_dec q (inject_Z (len (read (logBuffer session) w))))
      as [_|Hle]; [done|].
    exfalso. apply (Qlt_not_le _ _ Hq).
    apply Qle_trans with (inject_Z (len (read (logBuffer session) w)));
      [|done].
    change 0%Q with (inject_Z 0). rewrite <- Zle_Qle. apply len_nonneg.
  - intros H0. rewrite H0 in Hq. by apply (Qlt_irrefl 0).
Qed.

Lemma get_logs_negative_witness :
  executeGetLogs (js "s1") (Some (Num.of_Z (-1))) s1_abc
  = (Content
       (js "=== ANDROID Logs for Session s1 ===" ++ lf
        ++ js "Status: Streaming" ++ lf
        ++ js "Device: default" ++ lf
        ++ js "Total logs captured: 3" ++ lf
        ++ js "Showing last 2 lines:" ++ lf ++ lf
        ++ js "b" ++ lf ++ js "c" ++ lf ++ lf ++ lf
        ++ js "(Showing -1 of 3 total lines. Increase maxLines to see more.)"),
     s1_abc).
Proof.
  exact (get_logs_negative (js "s1") (Num.of_Z (-1)) (-1) s1_abc s1_session
           eq_refl eq_refl eq_refl).
Defined.

(** ** One session per id *)

Section one_per_id.
Implicit Types (w : World) (sid : str) (m : list (str * LogSession)).

Lemma NoDup_keys_set sid (s : LogSession) m :
  NoDup (JsMap.keys m) → NoDup (JsMap.keys (JsMap.set sid s m)).
Proof.
  intros Hnd. rewrite keys_set. unfold JsMap.has.
  destruct (JsMap.get sid m) eqn:E; [done|].
  apply NoDup_app. split; [done|]. split; [|apply NoDup_singleton].
  intros k Hk Hin. apply list_elem_of_singleton in Hin as ->.
  by apply (get_None_keys _ _ E).
Qed.

Lemma start_keys_NoDup args env w :
  NoDup (JsMap.keys (activeSessions w)) →
  NoDup (JsMap.keys (activeSessions (executeStartLogBroadcast args env w).2)).
Proof.
  intros Hnd.
  destruct (already_streaming (arg_sessionId args) w) as [text|] eqn:Hg.
  { unfold executeStartLogBroadcast. by rewrite Hg. }
  destruct (at_settle_end_shape args env w) as (Hs & _ & _).
  apply settled_keys in Hs.
  destruct (last_exit (length (processes w)) (during_settle env))
    as [code|] eqn:Hexit.
  - by rewrite (start_failure_world _ _ _ _ Hg Hexit), Hs.
  - rewrite (start_success_world _ _ _ Hg Hexit). simpl.
    apply NoDup_keys_set. by rewrite Hs.
Qed.

Lemma run_keys_NoDup history :
  NoDup (JsMap.keys (activeSessions (run history))).
Proof.
  unfold run.
  assert (H0 : NoDup (JsMap.keys (activeSessions initial)))
    by apply NoDup_nil_2.
  revert H0. generalize initial as w.
  induction history as [|a history IH]; intros w Hnd; simpl; [done|].
  apply IH. destruct a; simpl.
  - by apply start_keys_NoDup.
  - rewrite stop_sessions. by apply NoDup_fmap_delete.
  - by rewrite get_unchanged.
  - by rewrite clear_sessions.
  - change (deliver w ev) with (deliver_all [ev] w).
    by rewrite keys_deliver_all.
Qed.
End one_per_id.

(** X16.  Along every history, [list_log_sessions] shows no session id
    twice: the sessions it prints have pairwise different ids, each the
    key it is registered under. *)
Theorem listed_ids_distinct (history : list Action) :
  sessionId <$> listed (run history)
  = JsMap.keys (activeSessions (run history))
  ∧ NoDup (sessionId <$> listed (run history)).
Proof.
  assert (Hkeys : sessionId <$> listed (run history)
                  = JsMap.keys (activeSessions (run history))).
  { unfold listed, JsMap.values, JsMap.keys.
    rewrite <- list_fmap_compose. apply Forall_fmap_ext_1.
    eapply Forall_impl; [exact (run_well_keyed history)|]. by intros []. }
  split; [done|]. rewrite Hkeys. apply run_keys_NoDup.
Qed.

(** X17.  A start under an id that is not registered, followed by a
    stop whose [kill] delivers the signal, leaves the session map as
    the process events of the start's suspensions alone made it; of the
    start there remains one more process in the table, which got
    SIGTERM once. *)
Theorem start_then_stop
    (args : StartArgs) (env : StartEnv) (w : World) :
  JsMap.get (arg_sessionId args) (activeSessions w) = None →
  last_exit (length (processes w)) (during_settle env) = None →
  activeSessions
    (executeStopLogBroadcast (arg_sessionId args) Delivered
       (executeStartLogBroadcast args env w).2).2
  = activeSessions (deliver_all (interleaved args env) w)
  ∧ launch_records
      (executeStopLogBroadcast (arg_sessionId args) Delivered
         (executeStartLogBroadcast args env w).2).2
    = launch_records w
      ++ [match arg_platform args with
          | android =>
              (Android.adbCmd (detect_device (arg_deviceId args) env w).1,
               [], true, [js "SIGTERM"])
          | ios =>
              (Ios.file
                 (Ios.plan (detect_device (arg_deviceId args) env w).1),
               Ios.args
                 (Ios.plan (detect_device (arg_deviceId args) env w).1),
               false, [js "SIGTERM"])
          end].
Proof.
  intros Hnone Hexit.
  assert (Hg : already_streaming (arg_sessionId args) w = None).
  { unfold already_streaming, JsMap.has. by rewrite Hnone. }
  pose proof (guard_quiet _ _ Hg) as Hq.
  pose proof (launch_records_at_settle_end args env w) as Hrec.
  pose proof (sessions_at_settle_end args env w Hq) as Hsess.
  split.
  - rewrite stop_sessions, (start_success_world _ _ _ Hg Hexit). simpl.
    rewrite Hsess. apply delete_set_absent.
    by rewrite (get_deliver_all_quiet _ _ _ Hq).
  - unfold executeStopLogBroadcast.
    rewrite (start_success_world _ _ _ Hg Hexit). simpl.
    rewrite get_set_eq. simpl. unfold launch_records in *. simpl.
    rewrite (list_fmap_alter _ _
               (λ r, (r.1.1.1, r.1.1.2, r.1.2, r.2 ++ [js "SIGTERM"])))
      by (apply Forall_forall; done).
    rewrite Hrec.
    replace (length (processes w))
      with (length ((λ p, (spawnfile p, spawnargs p, shell p, signals p))
                      <$> processes w) + 0)%nat
      by (rewrite length_fmap; lia).
    rewrite alter_app_r. by destruct (arg_platform args).
Qed.

Lemma start_then_stop_witness :
  activeSessions
    (executeStopLogBroadcast (js "s2") Delivered
       (executeStartLogBroadcast s2_device undisturbed s1_abc).2).2
  = activeSessions s1_abc
  ∧ launch_records
      (executeStopLogBroadcast (js "s2") Delivered
         (executeStartLogBroadcast s2_device undisturbed s1_abc).2).2
    = [(js "adb logcat -v time", [], true, []);
       (js "idevicesyslog", [js "-u"; js "a1b2c3d4e5f6"], false,
        [js "SIGTERM"])].
Proof.
  exact (start_then_stop s2_device undisturbed s1_abc eq_refl eq_refl).
Defined.

Lemma keys_get_None {V} (k : str) (m : list (str * V)) :
  k ∉ JsMap.keys m → JsMap.get k m = None.
Proof.
  unfold JsMap.keys. induction m as [|[k0 v0] m IH]; [done|].
  rewrite fmap_cons, not_elem_of_cons. intros [Hne Hnotin].
  cbn [JsMap.get]. rewrite decide_False by done. by apply IH.
Qed.

(** X18.  A stopped session stays gone: whatever its process, or any
    other, does after the stop (output, error, exit), no session comes
    back under the id. *)
Theorem stopped_session_stays_gone
    (sid : str) (k : KillResult) (w : World) (evs : list ProcEvent) :
  JsMap.get sid
    (activeSessions
       (deliver_all evs (executeStopLogBroadcast sid k w).2)) = None.
Proof.
  apply keys_get_None. rewrite keys_deliver_all, stop_sessions.
  apply keys_delete.
Qed.
